(** * Logger-injection scripts: a model of the text rewriting they perform

    The repository holds four Python scripts that patch source text with
    [str.replace], [re.search], [re.sub] and [re.finditer]:

    - [scripts/add-logging.py]      ([update_handler_file])
    - [scripts/update-mains.py]     ([update_main_file])
    - [scripts/update-tests.py]     (module body)
    - [scripts/fix-healthchecks.py] (module body)

    File content is modelled as a list of characters.  A character is a code
    point below 256 ([ascii]); on this range Python's [\s], [str.isspace] and
    [str.lower] are the functions [is_space] and [lower_char] below.  The
    regular expressions of the scripts are written in a small regex syntax
    whose matcher follows the backtracking order of Python's [re]. *)

From stdpp Require Import gmap strings list.
From Stdlib Require Import Ascii Bool Arith Lia.

Local Open Scope list_scope.

(** ** Characters and literals *)

Definition LF : ascii := "010"%char.
Definition TAB : ascii := "009"%char.
Definition DQ : ascii := "034"%char.

(** [py l] reads a literal written with the escapes of the Python source:
    backslash-n is a line feed, backslash-t a tab, and backslash-q stands for
    the double quote. *)
Fixpoint py (l : string) : list ascii :=
  match l with
  | EmptyString => []
  | String "\"%char (String c l') =>
      (if Ascii.eqb c "n"%char then LF
       else if Ascii.eqb c "t"%char then TAB
       else if Ascii.eqb c "q"%char then DQ
       else c) :: py l'
  | String c l' => c :: py l'
  end.

(** Python's [str.isspace] / regex [\s] on code points below 256. *)
Definition is_space (c : ascii) : bool :=
  let n := nat_of_ascii c in
  ((9 <=? n) && (n <=? 13)) || ((28 <=? n) && (n <=? 32))
  || (n =? 133) || (n =? 160).

(** Python's [str.lower] on one code point below 256. *)
Definition lower_char (c : ascii) : ascii :=
  let n := nat_of_ascii c in
  if ((65 <=? n) && (n <=? 90))
     || ((192 <=? n) && (n <=? 222) && negb (n =? 215))
  then ascii_of_nat (n + 32) else c.

Definition is_not (x : ascii) (c : ascii) : bool := negb (Ascii.eqb c x).
Definition any_char (c : ascii) : bool := true.

(** ** Python string operations *)

(** [strip_prefix l s] is [Some s'] when [s = l ++ s']. *)
Fixpoint strip_prefix (l s : list ascii) : option (list ascii) :=
  match l, s with
  | [], _ => Some s
  | a :: l', b :: s' => if Ascii.eqb a b then strip_prefix l' s' else None
  | _ :: _, [] => None
  end.

Definition str_startswith (l s : list ascii) : bool :=
  match strip_prefix l s with Some _ => true | None => false end.

(** [sub in s]. *)
Fixpoint str_in (sub s : list ascii) : bool :=
  str_startswith sub s
  || match s with
     | [] => false
     | _ :: s' => str_in sub s'
     end.

(** [s.endswith(suffix)]. *)
Definition str_endswith (suffix s : list ascii) : bool :=
  str_startswith (rev suffix) (rev s).

Fixpoint lstrip (s : list ascii) : list ascii :=
  match s with
  | c :: s' => if is_space c then lstrip s' else s
  | [] => []
  end.

(** [s.rstrip()]. *)
Definition str_rstrip (s : list ascii) : list ascii := rev (lstrip (rev s)).

(** [s.lower()]. *)
Definition str_lower (s : list ascii) : list ascii := map lower_char s.

(** [s.replace(old, new)] for a non-empty [old]: every occurrence found by a
    left-to-right scan is replaced, and the scan resumes after the replaced
    text.  [skip] counts the characters of a replaced occurrence that remain
    to be passed over. *)
Fixpoint replace_go (old new s : list ascii) (skip : nat) : list ascii :=
  match skip with
  | S n => match s with
           | [] => []
           | _ :: s' => replace_go old new s' n
           end
  | O => if str_startswith old s
         then new ++ match s with
                     | [] => []
                     | _ :: s' => replace_go old new s' (length old - 1)
                     end
         else match s with
              | [] => []
              | c :: s' => c :: replace_go old new s' 0
              end
  end.

(** [s.replace(old, new)]; with an empty [old] Python puts [new] before every
    character and at the end. *)
Definition str_replace (old new s : list ascii) : list ascii :=
  match old with
  | [] => new ++ flat_map (fun c => c :: new) s
  | _ :: _ => replace_go old new s 0
  end.

(** [old] starts at no position of [s] before position [n]. *)
Definition no_occurrence_before (old s : list ascii) (n : nat) : Prop :=
  forall q, q < n -> str_startswith old (drop q s) = false.

(** [run_end cls s] is what is left of [s] after its longest prefix of
    characters of the class. *)
Fixpoint run_end (cls : ascii -> bool) (s : list ascii) : list ascii :=
  match s with
  | a :: s' => if cls a then run_end cls s' else s
  | [] => []
  end.

(** ** Regular expressions *)

(** The constructs the scripts use, as a pattern followed by the rest of the
    pattern: literal text, a greedy starred or plussed character class, the
    closing parenthesis of group 1 (group 1 always opens where the pattern
    starts), and a negative lookahead. *)
Inductive regex : Type :=
| Accept
| Lit (l : list ascii) (k : regex)
| Star (cls : ascii -> bool) (k : regex)
| Plus (cls : ascii -> bool) (k : regex)
| CloseGroup1 (k : regex)
| NotAhead (q k : regex).

Section Greedy.
Context {R : Type} (cls : ascii -> bool) (k : list ascii -> option R).

(** Take as many characters of the class as possible, then give back one
    at a time until the continuation succeeds. *)
Fixpoint greedy (s : list ascii) : option R :=
  match s with
  | a :: s' =>
      if cls a
      then match greedy s' with
           | Some r => Some r
           | None => k s
           end
      else k s
  | [] => k s
  end.
End Greedy.

(** [re_match_here r s] matches [r] at the start of [s].  The result is the
    text left after group 1 closed and the text left after the whole match. *)
Fixpoint re_match_here (r : regex) (s : list ascii)
  : option (list ascii * list ascii) :=
  match r with
  | Accept => Some (s, s)
  | Lit l k =>
      match strip_prefix l s with
      | Some s' => re_match_here k s'
      | None => None
      end
  | Star cls k => greedy cls (re_match_here k) s
  | Plus cls k =>
      match s with
      | a :: s' => if cls a then greedy cls (re_match_here k) s' else None
      | [] => None
      end
  | CloseGroup1 k =>
      match re_match_here k s with
      | Some (_, e) => Some (s, e)
      | None => None
      end
  | NotAhead q k =>
      match re_match_here q s with
      | Some _ => None
      | None => re_match_here k s
      end
  end.

(** [[^c]+], the close of group 1 and the delimiter [c]: the tail that the
    struct, initialisation and call patterns share. *)
Definition until_delimiter (c : ascii) : regex :=
  Plus (is_not c) (CloseGroup1 (Lit [c] Accept)).

(** A match object: [match.start()], [match.end()] and [match.group(1)]. *)
Record re_match : Type := {
  m_start : nat;
  m_end : nat;
  m_group1 : list ascii
}.

Definition mk_match (i : nat) (s g e : list ascii) : re_match :=
  {| m_start := i;
     m_end := i + (length s - length e);
     m_group1 := take (length s - length g) s |}.

Fixpoint search_go (r : regex) (s : list ascii) (i : nat) : option re_match :=
  match re_match_here r s with
  | Some (g, e) => Some (mk_match i s g e)
  | None =>
      match s with
      | [] => None
      | _ :: s' => search_go r s' (S i)
      end
  end.

(** [re.search(pattern, content)]: the leftmost match. *)
Definition re_search (r : regex) (content : list ascii) : option re_match :=
  search_go r content 0.

(** [re.finditer]: the non-overlapping matches from left to right.  Every
    pattern of the scripts consumes at least one character. *)
Fixpoint finditer_go (r : regex) (s : list ascii) (i skip : nat)
  : list re_match :=
  match skip with
  | S n => match s with
           | [] => []
           | _ :: s' => finditer_go r s' (S i) n
           end
  | O =>
      match s with
      | [] => []
      | _ :: s' =>
          match re_match_here r s with
          | Some (g, e) =>
              mk_match i s g e :: finditer_go r s' (S i) (length s - length e - 1)
          | None => finditer_go r s' (S i) 0
          end
      end
  end.

Definition re_finditer (r : regex) (content : list ascii) : list re_match :=
  finditer_go r content 0 0.

(** [re.sub(pattern, repl, content)], where [repl] builds the replacement
    from group 1. *)
Fixpoint sub_go (r : regex) (repl : list ascii -> list ascii)
    (s : list ascii) (skip : nat) : list ascii :=
  match skip with
  | S n => match s with
           | [] => []
           | _ :: s' => sub_go r repl s' n
           end
  | O =>
      match s with
      | [] => []
      | c :: s' =>
          match re_match_here r s with
          | Some (g, e) =>
              repl (take (length s - length g) s)
                ++ sub_go r repl s' (length s - length e - 1)
          | None => c :: sub_go r repl s' 0
          end
      end
  end.

Definition re_sub (r : regex) (repl : list ascii -> list ascii)
    (content : list ascii) : list ascii :=
  sub_go r repl content 0.

(** ** scripts/add-logging.py *)

Module AddLogging.

(** The handler names of both [for handler in [...]] loops. *)
Definition handlers : list (list ascii) :=
  map py ["IdentityHandler"; "FXHandler"; "LedgerHandler"; "AccountHandler";
          "PaymentHandler"; "DepositHandler"; "CardHandler"; "LendingHandler";
          "FraudHandler"; "ReportingHandler"]%string.

Definition import_anchor : list ascii := py "import (\n\t\qcontext\q".
Definition import_with_slog : list ascii :=
  py "import (\n\t\qcontext\q\n\t\qlog/slog\q".

(** 1. Add slog import if missing. *)
Definition add_import (content : list ascii) : list ascii :=
  if negb (str_in (py "log/slog") content)
  then str_replace import_anchor import_with_slog content
  else content.

Definition todo_marker : list ascii :=
  py "// TODO: log original error server-side: err".
Definition todo_return : list ascii :=
  py "return nil, status.Error(codes.Internal, \qinternal error\q)".

(** [// TODO: ...: err\s*\n\s*return nil, status\.Error\(...\)] *)
Definition todo_pattern : regex :=
  Lit todo_marker (Star is_space (Lit [LF] (Star is_space
    (Lit todo_return Accept)))).

Definition todo_replacement : list ascii :=
  py "h.logger.Error(\qhandler error\q, \qerror\q, err)\n\t\treturn nil, status.Error(codes.Internal, \qinternal error\q)".

(** 2. Replace ALL TODO error comments with actual logging. *)
Definition replace_todos (content : list ascii) : list ascii :=
  re_sub todo_pattern (fun _ => todo_replacement) content.

(** [(type {handler} struct \{[^}]+)(})]; the [re.DOTALL] flag of this search
    and of the initialisation search has nothing to act on, the patterns
    have no dot. *)
Definition struct_pattern (handler : list ascii) : regex :=
  Lit (py "type " ++ handler ++ py " struct {")
    (Plus (is_not "}") (CloseGroup1 (Lit (py "}") Accept))).

Definition logger_field : list ascii :=
  py "\n\tlogger               *slog.Logger".

(** One turn of loop 3: add the logger field to the handler struct. *)
Definition add_field (content handler : list ascii) : list ascii :=
  match re_search (struct_pattern handler) content with
  | Some m =>
      if negb (str_in (py "logger") (m_group1 m)) then
        let fields := m_group1 m in
        if negb (str_in (py "\tlogger") fields)
           && negb (str_in (py "logger *") fields)
        then
          let new_fields := fields ++ logger_field in
          str_replace fields new_fields content
        else content
      else content
  | None => content
  end.

(** [(func New{handler}\([^)]+)(\) \*{handler})] *)
Definition ctor_pattern (handler : list ascii) : regex :=
  Lit (py "func New" ++ handler ++ py "(")
    (Plus (is_not ")") (CloseGroup1 (Lit (py ") *" ++ handler) Accept))).

(** [(return &{handler}\{[^}]+)(})] *)
Definition init_pattern (handler : list ascii) : regex :=
  Lit (py "return &" ++ handler ++ py "{")
    (Plus (is_not "}") (CloseGroup1 (Lit (py "}") Accept))).

(** The three branches that add the logger as last parameter. *)
Definition new_params (params : list ascii) : list ascii :=
  if str_endswith (py ",\n") params then
    params ++ py "\tlogger *slog.Logger,\n"
  else if str_endswith (py ")") params then
    str_replace (py ")") (py ",\n\tlogger *slog.Logger,)") params
  else
    params ++ py ",\n\tlogger *slog.Logger".

Definition logger_init : list ascii :=
  py "\n\t\tlogger:               logger,".

(** The struct initialisation update nested in loop 4. *)
Definition add_init (content handler : list ascii) : list ascii :=
  match re_search (init_pattern handler) content with
  | Some init_match =>
      let init_fields := m_group1 init_match in
      if negb (str_in (py "logger:") init_fields)
         && negb (str_in (py "logger *") init_fields)
      then
        let new_init := init_fields ++ logger_init in
        str_replace init_fields new_init content
      else content
  | None => content
  end.

(** One turn of loop 4: add the logger parameter to [New{handler}]. *)
Definition add_param (content handler : list ascii) : list ascii :=
  match re_search (ctor_pattern handler) content with
  | Some m =>
      if negb (str_in (py "logger") (m_group1 m)) then
        let params := m_group1 m in
        let content := str_replace params (new_params params) content in
        add_init content handler
      else content
  | None => content
  end.

(** The in-memory transform of [update_handler_file]: the value of
    [content] when the function reaches [if content != original]. *)
Definition transform (content : list ascii) : list ascii :=
  let content := add_import content in
  let content := replace_todos content in
  let content := fold_left add_field handlers content in
  fold_left add_param handlers content.

End AddLogging.

(** ** scripts/update-mains.py and scripts/update-tests.py *)

(** The constructor names of the loops of both scripts. *)
Definition constructors : list (list ascii) :=
  map py ["NewIdentityHandler"; "NewFXHandler"; "NewLedgerHandler";
          "NewAccountHandler"; "NewPaymentHandler"; "NewDepositHandler";
          "NewCardHandler"; "NewLendingHandler"; "NewFraudHandler";
          "NewReportingHandler"]%string.

(** [({handler}\(\s*[^)]+)(\))] *)
Definition call_pattern (handler : list ascii) : regex :=
  Lit (handler ++ py "(")
    (Star is_space (Plus (is_not ")") (CloseGroup1 (Lit (py ")") Accept)))).

(** Add logger as last argument. *)
Definition new_args (args : list ascii) : list ascii :=
  if str_endswith (py ",") (str_rstrip args)
  then args ++ py "\n\t\tlogger,"
  else args ++ py ",\n\t\tlogger,".

Module UpdateMains.

(** One turn of the loop of [update_main_file]. *)
Definition add_arg (content handler : list ascii) : list ascii :=
  match re_search (call_pattern handler) content with
  | Some m =>
      let args := m_group1 m in
      if negb (str_in (py "logger") (str_lower args))
      then str_replace args (new_args args) content
      else content
  | None => content
  end.

Definition transform (content : list ascii) : list ascii :=
  fold_left add_arg constructors content.

End UpdateMains.

Module UpdateTests.

(** Add slog import if needed. *)
Definition add_import (content : list ascii) : list ascii :=
  if negb (str_in (py "log/slog") content) && str_in (py "\qtesting\q") content
  then str_replace (py "\qtesting\q") (py "\qlog/slog\q\n\t\qtesting\q") content
  else content.

(** The body of [for match in reversed(matches)]. *)
Definition patch_match (content : list ascii) (m : re_match) : list ascii :=
  let args := m_group1 m in
  if negb (str_in (py "logger") (str_lower args))
     && negb (str_in (py "log") (str_lower args))
  then take (m_start m) content ++ new_args args ++ drop (m_end m) content
  else content.

(** One turn of the loop over the constructor names. *)
Definition add_args (content handler : list ascii) : list ascii :=
  let matches := re_finditer (call_pattern handler) content in
  fold_left patch_match (rev matches) content.

Definition transform (content : list ascii) : list ascii :=
  fold_left add_args constructors (add_import content).

End UpdateTests.

(** ** scripts/fix-healthchecks.py *)

Module FixHealthchecks.

Definition start_period_key : list ascii := py "start_period".

(** [test: \[\qCMD\q, \qwget\q[^]]*healthz\q\]\n\s+interval: 10s], with [\q] for
    the double quote. *)
Definition anchor_pattern (k : regex) : regex :=
  Lit (py "test: [\qCMD\q, \qwget\q")
    (Star (is_not "]") (Lit (py "healthz\q]\n")
      (Plus is_space (Lit (py "interval: 10s") k)))).

(** [(?!.*start_period)] under [re.DOTALL]. *)
Definition not_followed (k : regex) : regex :=
  NotAhead (Star any_char (Lit start_period_key Accept)) k.

Definition pattern : regex :=
  anchor_pattern (CloseGroup1 (not_followed Accept)).

Definition start_period_line : list ascii := py "\n      start_period: 30s".

(** The replacement template: group 1, then the new line. *)
Definition replacement (group1 : list ascii) : list ascii :=
  group1 ++ start_period_line.

Definition transform (content : list ascii) : list ascii :=
  re_sub pattern replacement content.

End FixHealthchecks.

(** ** Files, output and the four programs *)

(** The lines the scripts print. *)
Inductive report : Type :=
| Updated (path : string)
| NoChangesNeeded (path : string)
| Total (count : nat)
| AddedStartPeriod.

(** The scripts read and write whole files and print report lines.  The
    world holds the text of every file (as [f.read()] returns it), the log
    of the writes performed so far, and the lines printed so far. *)
Record world : Type := {
  files : gmap string (list ascii);
  written : list (string * list ascii);
  printed : list report
}.

Inductive exn : Type :=
| FileNotFoundError (path : string).

Inductive outcome (A : Type) : Type :=
| Returned (a : A)
| Raised (e : exn).
Arguments Returned {A} a.
Arguments Raised {A} e.

Definition io (A : Type) : Type := world -> outcome A * world.

#[export] Instance io_ret : MRet io := fun A a w => (Returned a, w).
#[export] Instance io_bind : MBind io := fun A B f m w =>
  match m w with
  | (Returned a, w') => f a w'
  | (Raised e, w') => (Raised e, w')
  end.

(** [with open(path, 'r') as f: f.read()] *)
Definition read_file (path : string) : io (list ascii) := fun w =>
  match files w !! path with
  | Some content => (Returned content, w)
  | None => (Raised (FileNotFoundError path), w)
  end.

(** The world after [path] was overwritten with [content]. *)
Definition after_write (path : string) (content : list ascii) (w : world)
  : world :=
  {| files := <[path := content]> (files w);
     written := written w ++ [(path, content)];
     printed := printed w |}.

(** The world after one more line was printed. *)
Definition after_print (l : report) (w : world) : world :=
  {| files := files w; written := written w; printed := printed w ++ [l] |}.

(** [with open(path, 'w') as f: f.write(content)] *)
Definition write_file (path : string) (content : list ascii) : io unit :=
  fun w => (Returned tt, after_write path content w).

Definition print (l : report) : io unit := fun w =>
  (Returned tt, after_print l w).

(** [for x in xs: count = body(x, count)] *)
Fixpoint for_each {A : Type} (xs : list A) (body : A -> nat -> io nat)
    (count : nat) : io nat :=
  match xs with
  | [] => mret count
  | x :: xs' => count' ← body x count; for_each xs' body count'
  end.

(** [update_handler_file] of scripts/add-logging.py. *)
Definition update_handler_file (filepath : string) : io bool :=
  content ← read_file filepath;
  let original := content in
  let content := AddLogging.transform content in
  if bool_decide (content ≠ original)
  then write_file filepath content;; mret true
  else mret false.

(** [update_main_file] of scripts/update-mains.py. *)
Definition update_main_file (filepath : string) : io bool :=
  content ← read_file filepath;
  let original := content in
  let content := UpdateMains.transform content in
  if bool_decide (content ≠ original)
  then write_file filepath content;; mret true
  else mret false.

(** The loop that both scripts run over the paths that [glob.glob] found. *)
Definition update_all (update : string -> io bool) (paths : list string)
  : io unit :=
  count ← for_each paths (fun f count =>
    changed ← update f;
    if changed : bool
    then print (Updated f);; mret (count + 1)
    else print (NoChangesNeeded f);; mret count) 0;
  print (Total count).

Definition add_logging_main (paths : list string) : io unit :=
  update_all update_handler_file paths.

Definition update_mains_main (paths : list string) : io unit :=
  update_all update_main_file paths.

(** The body of the loop of scripts/update-tests.py for one path. *)
Definition update_test_file (f : string) (count : nat) : io nat :=
  content ← read_file f;
  let original := content in
  let content := UpdateTests.transform content in
  if bool_decide (content ≠ original)
  then write_file f content;; print (Updated f);; mret (count + 1)
  else mret count.

Definition update_tests_main (paths : list string) : io unit :=
  count ← for_each paths update_test_file 0;
  print (Total count).

Definition compose_file : string := "docker-compose.yml".

(** scripts/fix-healthchecks.py. *)
Definition fix_healthchecks_main : io unit :=
  content ← read_file compose_file;
  let new_content := FixHealthchecks.transform content in
  write_file compose_file new_content;;
  print AddedStartPeriod.

(** ** Vocabulary of the statements *)

(** The span of the match [m] lies in [content] where [m] says. *)
Definition located (content : list ascii) (m : re_match) : Prop :=
  content = take (m_start m) content ++ m_group1 m
              ++ drop (m_start m + length (m_group1 m)) content.

(** [content] with the span of [m] turned into [new_span], and with every
    further copy of the span text after the match turned into [new_span] as
    well. *)
Definition rewritten_at (content : list ascii) (m : re_match)
    (new_span : list ascii) : list ascii :=
  take (m_start m) content ++ new_span
    ++ str_replace (m_group1 m) new_span
         (drop (m_start m + length (m_group1 m)) content).

(** Modelled on the words of the specification, for comparison with
    [str_replace]: only the first literal occurrence of [old] is replaced. *)
Fixpoint replace_first (old new s : list ascii) : list ascii :=
  if str_startswith old s then new ++ drop (length old) s
  else match s with
       | [] => []
       | c :: s' => c :: replace_first old new s'
       end.

(** What follows [\s+interval: 10s] at the start of [t]. *)
Definition after_interval_line (t : list ascii) : option (list ascii) :=
  match t with
  | a :: t' =>
      if is_space a
      then strip_prefix (py "interval: 10s") (run_end is_space t')
      else None
  | [] => None
  end.

(** What follows the end of the test line and the interval line at the
    start of [u]. *)
Definition after_test_line (u : list ascii) : option (list ascii) :=
  strip_prefix (py "healthz\q]\n") u ≫= after_interval_line.

(** The text that follows the anchor block at the start of [s], when [s]
    starts with one: the end of the match of the anchor pattern alone. *)
Definition anchor_end (s : list ascii) : option (list ascii) :=
  match re_match_here (FixHealthchecks.anchor_pattern Accept) s with
  | Some (_, e) => Some e
  | None => None
  end.

(** The tests that make the rules of [update_handler_file] skip their
    rewrite: the import rule, the TODO rule (nothing to substitute), and for
    a handler name the field rule and the parameter rule. *)
Definition import_done (content : list ascii) : bool :=
  str_in (py "log/slog") content
  || negb (str_in AddLogging.import_anchor content).

Definition todos_done (content : list ascii) : bool :=
  match re_search AddLogging.todo_pattern content with
  | Some _ => false
  | None => true
  end.

Definition field_done (content handler : list ascii) : bool :=
  match re_search (AddLogging.struct_pattern handler) content with
  | Some m => str_in (py "logger") (m_group1 m)
  | None => true
  end.

Definition param_done (content handler : list ascii) : bool :=
  match re_search (AddLogging.ctor_pattern handler) content with
  | Some m => str_in (py "logger") (m_group1 m)
  | None => true
  end.

Definition postconditions_hold (content : list ascii) : bool :=
  import_done content && todos_done content
  && forallb (field_done content) AddLogging.handlers
  && forallb (param_done content) AddLogging.handlers.

(** None of the names occurs in the content. *)
Definition mentions_none (names : list (list ascii)) (content : list ascii)
  : bool :=
  forallb (fun name => negb (str_in name content)) names.

(** The number of [Updated] lines among the lines printed. *)
Definition is_updated_line (l : report) : bool :=
  match l with
  | Updated _ => true
  | _ => false
  end.

Definition count_updated (lines : list report) : nat :=
  length (filter (fun l => is_updated_line l = true) lines).

(** The body of the loop of [update_all]. *)
Definition update_and_report (update : string -> io bool) (f : string)
    (count : nat) : io nat :=
  changed ← update f;
  if changed : bool
  then print (Updated f);; mret (count + 1)
  else print (NoChangesNeeded f);; mret count.

(** The write that a batch run performs for the file [p] of the world [w]:
    none when the transform leaves the content as it is. *)
Definition write_of (transform : list ascii -> list ascii) (w : world)
    (p : string) : option (string * list ascii) :=
  c ← files w !! p;
  if bool_decide (transform c ≠ c) then Some (p, transform c) else None.

Definition writes_of (transform : list ascii -> list ascii) (w : world)
    (paths : list string) : list (string * list ascii) :=
  omap (write_of transform w) paths.

(** The lines that a batch run prints for the file [p]; a [quiet] run has
    no line for a file it leaves alone. *)
Definition line_of (transform : list ascii -> list ascii) (quiet : bool)
    (w : world) (p : string) : list report :=
  match write_of transform w p with
  | Some _ => [Updated p]
  | None => if quiet then [] else [NoChangesNeeded p]
  end.

Definition lines_of (transform : list ascii -> list ascii) (quiet : bool)
    (w : world) (paths : list string) : list report :=
  flat_map (line_of transform quiet w) paths.

(** What a batch run over [paths] that started in [w] has to show for
    itself when it ends in [res]: it returned, it wrote the files that the
    transform changes, in order, it printed their lines and the total, and
    every listed file holds its transformed content. *)
Definition batch_result (transform : list ascii -> list ascii) (quiet : bool)
    (paths : list string) (w : world) (res : outcome unit * world) : Prop :=
  res.1 = Returned tt
  /\ written res.2 = written w ++ writes_of transform w paths
  /\ printed res.2 =
       printed w ++ lines_of transform quiet w paths
         ++ [Total (length (writes_of transform w paths))]
  /\ forall q, files res.2 !! q =
       if bool_decide (q ∈ paths) then transform <$> files w !! q
       else files w !! q.

(** What is left of a batch run that stopped at the missing file [p]: the
    exception, the writes and lines of the files before it, and no total. *)
Definition batch_aborted (transform : list ascii -> list ascii) (quiet : bool)
    (pre : list string) (p : string) (w : world)
    (res : outcome unit * world) : Prop :=
  res.1 = Raised (FileNotFoundError p)
  /\ written res.2 = written w ++ writes_of transform w pre
  /\ printed res.2 = printed w ++ lines_of transform quiet w pre
  /\ forall q, files res.2 !! q =
       if bool_decide (q ∈ pre) then transform <$> files w !! q
       else files w !! q.

(** A TODO block: the comment, white space with a line feed in it, and the
    return statement. *)
Definition todo_block (w1 w2 : list ascii) : list ascii :=
  AddLogging.todo_marker ++ w1 ++ LF :: w2 ++ AddLogging.todo_return.

(** ** Sample inputs *)

(** A world with one file, nothing written and nothing printed yet. *)
Definition one_file (path : string) (content : list ascii) : world :=
  {| files := {[ path := content ]}; written := []; printed := [] |}.

(** A Go file that mentions no handler, no import block and no TODO. *)
Definition plain_go : list ascii := py "package grpc\n\nfunc helper() {}\n".

(** A handler file as the services have it. *)
Definition handler_go : list ascii :=
  py "package grpc\n\nimport (\n\t\qcontext\q\n\t\qfmt\q\n)\n\ntype FXHandler struct {\n\tpb.UnimplementedFXServiceServer\n\tconvert app.ConvertUseCase\n}\n\nfunc NewFXHandler(\n\tconvert app.ConvertUseCase,\n) *FXHandler {\n\treturn &FXHandler{\n\t\tconvert: convert,\n\t}\n}\n\nfunc (h *FXHandler) Convert(ctx context.Context) (*pb.Reply, error) {\n\tout, err := h.convert.Run(ctx)\n\tif err != nil {\n\t\t// TODO: log original error server-side: err\n\t\treturn nil, status.Error(codes.Internal, \qinternal error\q)\n\t}\n\treturn out, nil\n}\n".

(** A Go file with the import block and no handler name. *)
Definition import_only : list ascii :=
  py "package grpc\n\nimport (\n\t\qcontext\q\n)\n".

(** A call site that lacks the logger argument. *)
Definition call_without_logger : list ascii := py "h := NewFXHandler(1)".

(** A compose file without any healthcheck. *)
Definition compose_without_healthcheck : list ascii :=
  py "services:\n  db:\n    image: postgres\n".

(** Scenario C for the handler name [h]: the constructor
    [func New{h}(x int) *{h} { return &{h}{x: x} }]. *)
Definition scenario_constructor (h : list ascii) : list ascii :=
  py "func New" ++ h ++ py "(x int) *" ++ h ++ py " { return &" ++ h
    ++ py "{x: x} }".

(** Scenario D for the constructor name [h]: the call [{h}(1)]. *)
Definition scenario_call (h : list ascii) : list ascii := h ++ py "(1)".

(** The same call with the logger already passed. *)
Definition scenario_call_with_logger (h : list ascii) : list ascii :=
  h ++ py "(1, logger)".

(** A handler file in which the text of the first [FXHandler] struct span
    comes back inside a comment, where it runs into [log/slog]. *)
Definition span_inside_marker : list ascii :=
  py "package grpc\n\nimport (\n\t\qcontext\q\n)\n\ntype FXHandler struct {l}\n\n// was: type FXHandler struct {log/slog}\n".

(** A constructor whose parameter list ends with a comma and no line feed. *)
Definition trailing_comma_constructor : list ascii :=
  py "func NewFXHandler(x int,) *FXHandler { return &FXHandler{x: x,} }".

(** Two struct declarations; the span text of the first one opens the
    second one too. *)
Definition two_struct_copies : list ascii :=
  py "type FXHandler struct {a}\ntype FXHandler struct {ab}\n".

(** The same call twice, and two different calls. *)
Definition repeated_call : list ascii :=
  py "NewFXHandler(a)\nNewFXHandler(a)".
Definition two_calls : list ascii :=
  py "NewFXHandler(a)\nNewFXHandler(b)".

(** An anchor block, and two texts that may follow it. *)
Definition wget_block : list ascii :=
  py "test: [\qCMD\q, \qwget\q, \q-qO-\q, \qhttp://localhost:8080/healthz\q]\n      interval: 10s".
Definition compose_tail_plain : list ascii := py "\n      timeout: 5s\n".
Definition compose_tail_with_key : list ascii :=
  py "\n      timeout: 5s\n      start_period: 5s\n".

(** Two services: the first healthcheck lacks the key, the second has it. *)
Definition compose_two_services : list ascii :=
  py "  a:\n    healthcheck:\n      " ++ wget_block ++ compose_tail_plain
    ++ py "  b:\n    healthcheck:\n      " ++ wget_block
    ++ compose_tail_with_key.

(** A test file with one constructor call that lacks the logger. *)
Definition test_go : list ascii :=
  py "package fx\n\nimport (\n\t\qtesting\q\n)\n\nfunc TestConvert(t *testing.T) {\n\th := NewFXHandler(1)\n\t_ = h\n}\n".

(** A call that lacks the logger, and then a call that names it. *)
Definition call_then_logged_call : list ascii :=
  py "NewFXHandler(1)\nNewFXHandler(1, logger)".

(** A world with the two files [a.go] and [b.go]. *)
Definition two_files (a b : list ascii) : world :=
  {| files := {[ "a.go"%string := a; "b.go"%string := b ]};
     written := []; printed := [] |}.

(** * Properties *)

(** ** Prefixes and occurrences *)

Section Strings.
Implicit Types l s sub old new : list ascii.

Lemma strip_prefix_Some l s s' :
  strip_prefix l s = Some s' <-> s = l ++ s'.
Proof.
  revert s. induction l as [|a l IH]; intros s; simpl.
  - split; intros H; [injection H as ->; reflexivity | subst; reflexivity].
  - destruct s as [|b s]; [split; discriminate|].
    destruct (Ascii.eqb_spec a b) as [->|Hne].
    + rewrite IH. split; intros H; [subst; reflexivity|].
      injection H as ->. reflexivity.
    + split; [discriminate|]. intros H. injection H as -> _. contradiction.
Qed.

Lemma strip_prefix_app l s : strip_prefix l (l ++ s) = Some s.
Proof. apply strip_prefix_Some. reflexivity. Qed.

Lemma str_startswith_true l s :
  str_startswith l s = true <-> exists s', s = l ++ s'.
Proof.
  unfold str_startswith. destruct (strip_prefix l s) as [s'|] eqn:E.
  - apply strip_prefix_Some in E. split; eauto.
  - split; [discriminate|]. intros [s' ->].
    rewrite strip_prefix_app in E. discriminate.
Qed.

Lemma str_startswith_app l s : str_startswith l (l ++ s) = true.
Proof. apply str_startswith_true. eauto. Qed.

(** [sub in s] holds exactly when [s] splits around a copy of [sub]. *)
Lemma str_in_true sub s :
  str_in sub s = true <-> exists a b, s = a ++ sub ++ b.
Proof.
  induction s as [|c s IH]; simpl.
  - rewrite orb_false_r, str_startswith_true. split.
    + intros [b ->]. exists [], b. reflexivity.
    + intros (a & b & H). destruct a; [eauto|discriminate].
  - rewrite orb_true_iff, str_startswith_true, IH. split.
    + intros [[b ->]|(a & b & ->)].
      * exists [], b. reflexivity.
      * exists (c :: a), b. reflexivity.
    + intros (a & b & H). destruct a as [|c' a].
      * left. eauto.
      * right. injection H as -> ->. eauto.
Qed.

Lemma str_in_false_tail sub c s :
  str_in sub (c :: s) = false -> str_in sub s = false.
Proof. simpl. intros H. apply orb_false_iff in H. apply H. Qed.

Lemma str_in_false_head sub s :
  str_in sub s = false -> str_startswith sub s = false.
Proof. destruct s; simpl; intros H; apply orb_false_iff in H; apply H. Qed.

(** A text that occurs in [s] brings each of its parts with it. *)
Lemma str_in_part a sub b s :
  str_in (a ++ sub ++ b) s = true -> str_in sub s = true.
Proof.
  rewrite !str_in_true. intros (x & y & ->).
  exists (x ++ a), (b ++ y). now rewrite <- !app_assoc.
Qed.

Lemma str_in_part_absent a sub b s :
  str_in sub s = false -> str_in (a ++ sub ++ b) s = false.
Proof.
  intros H. destruct (str_in (a ++ sub ++ b) s) eqn:E; [|reflexivity].
  apply str_in_part in E. congruence.
Qed.

(** *** [str.replace] *)

Lemma replace_go_skip old new x s :
  replace_go old new (x ++ s) (length x) = replace_go old new s 0.
Proof. induction x as [|c x IH]; simpl; [reflexivity | exact IH]. Qed.

Lemma replace_go_hit old new s :
  old <> [] ->
  replace_go old new (old ++ s) 0 = new ++ replace_go old new s 0.
Proof.
  intros Hold. destruct old as [|c old]; [contradiction|].
  pose proof (str_startswith_app (c :: old) s) as E.
  cbn [app replace_go] in *. rewrite E.
  f_equal. replace (length (c :: old) - 1) with (length old)
    by (cbn [length]; lia).
  apply replace_go_skip.
Qed.

Lemma replace_go_miss old new c s :
  str_startswith old (c :: s) = false ->
  replace_go old new (c :: s) 0 = c :: replace_go old new s 0.
Proof. intros H. cbn [replace_go]. rewrite H. reflexivity. Qed.

Lemma replace_go_absent old new s :
  str_in old s = false -> replace_go old new s 0 = s.
Proof.
  induction s as [|c s IH]; intros H.
  - apply str_in_false_head in H. cbn [replace_go]. rewrite H. reflexivity.
  - rewrite replace_go_miss by (apply str_in_false_head, H).
    f_equal. apply IH. eapply str_in_false_tail, H.
Qed.

(** Replacing a text that does not occur changes nothing. *)
Lemma str_replace_absent old new s :
  str_in old s = false -> str_replace old new s = s.
Proof.
  destruct old as [|c old]; [|apply replace_go_absent].
  intros H. destruct s; discriminate.
Qed.

(** When the first occurrence of [old] is the one after [a], that
    occurrence is replaced and the scan goes on in what follows it. *)
Lemma replace_go_first old new a b :
  old <> [] ->
  no_occurrence_before old (a ++ old ++ b) (length a) ->
  replace_go old new (a ++ old ++ b) 0 = a ++ new ++ replace_go old new b 0.
Proof.
  intros Hold. induction a as [|c a IH]; intros Hno.
  - simpl. apply replace_go_hit, Hold.
  - cbn [app]. rewrite replace_go_miss.
    + f_equal. apply IH. intros q Hq. apply (Hno (S q)). simpl. lia.
    + apply (Hno 0). simpl. lia.
Qed.

Lemma str_replace_first old new a b :
  old <> [] ->
  no_occurrence_before old (a ++ old ++ b) (length a) ->
  str_replace old new (a ++ old ++ b) = a ++ new ++ str_replace old new b.
Proof.
  intros Hold Hno. destruct old as [|c old]; [contradiction|].
  apply replace_go_first; assumption.
Qed.

End Strings.

(** ** The matcher *)

Section Matcher.
Implicit Types (r k : regex) (s l g e : list ascii) (cls : ascii -> bool).

Lemma run_end_suffix cls s :
  exists x, s = x ++ run_end cls s /\ forallb cls x = true.
Proof.
  induction s as [|a s (x & IH & Hx)]; simpl.
  - exists []. split; reflexivity.
  - destruct (cls a) eqn:Ha.
    + exists (a :: x). simpl. rewrite Ha, Hx. split; [congruence|reflexivity].
    + exists []. split; reflexivity.
Qed.

Lemma run_end_stop cls x a s :
  forallb cls x = true -> cls a = false ->
  run_end cls (x ++ a :: s) = a :: s.
Proof.
  intros Hx Ha. induction x as [|b x IH]; simpl in *.
  - now rewrite Ha.
  - apply andb_true_iff in Hx as [-> Hx]. now apply IH.
Qed.

Lemma run_end_head cls s a u :
  run_end cls s = a :: u -> cls a = false.
Proof.
  induction s as [|b s IH]; simpl; [discriminate|].
  destruct (cls b) eqn:Hb; [exact IH|]. intros H. injection H as -> _.
  exact Hb.
Qed.

Section GreedyFacts.
Context {R : Type} (cls : ascii -> bool) (k : list ascii -> option R).

(** A successful greedy run hands a suffix to the continuation. *)
Lemma greedy_Some s res :
  greedy cls k s = Some res ->
  exists x u, s = x ++ u /\ forallb cls x = true /\ k u = Some res.
Proof.
  revert res. induction s as [|a s IH]; intros res; simpl.
  - intros H. exists [], []. auto.
  - destruct (cls a) eqn:Ha.
    + destruct (greedy cls k s) as [res'|] eqn:E.
      * intros H. injection H as ->.
        destruct (IH res eq_refl) as (x & u & -> & Hx & Hu).
        exists (a :: x), u. simpl. rewrite Ha, Hx. auto.
      * intros H. exists [], (a :: s). auto.
    + intros H. exists [], (a :: s). auto.
Qed.

(** When the continuation rejects every text that starts inside the
    run, the only split tried with success is the longest run. *)
Lemma greedy_all s :
  (forall a u, cls a = true -> k (a :: u) = None) ->
  greedy cls k s = k (run_end cls s).
Proof.
  intros Hk. induction s as [|a s IH]; simpl; [reflexivity|].
  destruct (cls a) eqn:Ha; [|reflexivity].
  rewrite IH. destruct (k (run_end cls s)) eqn:E; [reflexivity|].
  apply Hk, Ha.
Qed.

(** When a success of the continuation survives one more leading
    character of the class, backing off changes nothing. *)
Lemma greedy_stable s :
  (forall a u res, cls a = true -> k u = Some res -> k (a :: u) = Some res) ->
  greedy cls k s = k s.
Proof.
  intros Hk. induction s as [|a s IH]; simpl; [reflexivity|].
  destruct (cls a) eqn:Ha; [|reflexivity].
  rewrite IH. destruct (k s) as [res|] eqn:E; [|reflexivity].
  symmetry. now apply Hk.
Qed.
End GreedyFacts.

(** Both positions that a match reports lie inside the text matched. *)
Lemma re_match_here_suffix r s g e :
  re_match_here r s = Some (g, e) -> g `suffix_of` s /\ e `suffix_of` s.
Proof.
  revert s g e. induction r as [|l k IH|cls k IH|cls k IH|k IH|q _ k IH];
    intros s g e; cbn [re_match_here].
  - intros H. injection H as <- <-. split; reflexivity.
  - destruct (strip_prefix l s) as [s'|] eqn:E; [|discriminate].
    apply strip_prefix_Some in E as ->. intros H.
    destruct (IH _ _ _ H). split; apply suffix_app_r; assumption.
  - intros H. apply greedy_Some in H as (x & u & -> & _ & H).
    destruct (IH _ _ _ H). split; apply suffix_app_r; assumption.
  - destruct s as [|a s]; [discriminate|].
    destruct (cls a); [|discriminate].
    intros H. apply greedy_Some in H as (x & u & -> & _ & H).
    destruct (IH _ _ _ H).
    split; apply suffix_cons_r, suffix_app_r; assumption.
  - destruct (re_match_here k s) as [[g' e']|] eqn:E; [|discriminate].
    intros H. injection H as <- <-. split; [reflexivity|].
    apply (IH _ _ _ E).
  - destruct (re_match_here q s); [discriminate|]. apply IH.
Qed.

Lemma re_match_here_Lit l k s :
  re_match_here (Lit l k) (l ++ s) = re_match_here k s.
Proof. cbn [re_match_here]. now rewrite strip_prefix_app. Qed.

Lemma re_match_here_Lit_startswith l k s :
  str_startswith l s = false -> re_match_here (Lit l k) s = None.
Proof.
  unfold str_startswith. cbn [re_match_here].
  destruct (strip_prefix l s); [discriminate|reflexivity].
Qed.

(** *** [re.search] *)

(** The match found is the leftmost one. *)
Lemma search_go_Some r s i m :
  search_go r s i = Some m ->
  exists p g e,
    re_match_here r (drop p s) = Some (g, e)
    /\ m = mk_match (i + p) (drop p s) g e
    /\ p <= length s
    /\ forall q, q < p -> re_match_here r (drop q s) = None.
Proof.
  revert i. induction s as [|c s IH]; intros i; cbn [search_go].
  - destruct (re_match_here r []) as [[g e]|] eqn:E; [|discriminate].
    intros H. injection H as <-. exists 0, g, e.
    rewrite Nat.add_0_r. repeat split; auto. intros q Hq. lia.
  - destruct (re_match_here r (c :: s)) as [[g e]|] eqn:E.
    + intros H. injection H as <-. exists 0, g, e.
      rewrite Nat.add_0_r. repeat split; auto; [simpl; lia|].
      intros q Hq. lia.
    + intros H. destruct (IH _ H) as (p & g & e & Hm & -> & Hp & Hmin).
      exists (S p), g, e. cbn [drop]. repeat split; auto.
      * f_equal. lia.
      * simpl. lia.
      * intros [|q] Hq; [exact E|]. apply Hmin. lia.
Qed.

Lemma search_go_None r s i :
  (forall q, q <= length s -> re_match_here r (drop q s) = None) ->
  search_go r s i = None.
Proof.
  revert i. induction s as [|c s IH]; intros i Hno; cbn [search_go].
  - pose proof (Hno 0 (Nat.le_refl _)) as H0. cbn [drop] in H0.
    now rewrite H0.
  - pose proof (Hno 0 (Nat.le_0_l _)) as H0. cbn [drop] in H0.
    rewrite H0. apply IH.
    intros q Hq. apply (Hno (S q)). simpl. lia.
Qed.

(** A pattern that opens with a literal finds nothing in a text where the
    literal does not occur. *)
Lemma re_search_absent l k s :
  str_in l s = false -> re_search (Lit l k) s = None.
Proof.
  unfold re_search. generalize 0.
  induction s as [|c s IH]; intros i H; cbn [search_go].
  - rewrite re_match_here_Lit_startswith by (apply str_in_false_head, H).
    reflexivity.
  - rewrite re_match_here_Lit_startswith by (apply str_in_false_head, H).
    apply IH. eapply str_in_false_tail, H.
Qed.

(** *** [re.sub] *)

Lemma sub_go_skip r repl x s :
  sub_go r repl (x ++ s) (length x) = sub_go r repl s 0.
Proof.
  induction x as [|c x IH]; simpl; [destruct s; reflexivity | exact IH].
Qed.

Lemma re_sub_absent l k repl s :
  str_in l s = false -> re_sub (Lit l k) repl s = s.
Proof.
  unfold re_sub. induction s as [|c s IH]; intros H; [reflexivity|].
  cbn [sub_go].
  rewrite re_match_here_Lit_startswith by (apply str_in_false_head, H).
  f_equal. apply IH. eapply str_in_false_tail, H.
Qed.

Lemma search_go_None_inv r s i :
  search_go r s i = None ->
  forall q, q <= length s -> re_match_here r (drop q s) = None.
Proof.
  revert i. induction s as [|c s IH]; intros i; cbn [search_go].
  - destruct (re_match_here r []) as [[g e]|] eqn:E; [discriminate|].
    intros _ [|q] Hq; [exact E | simpl in Hq; lia].
  - destruct (re_match_here r (c :: s)) as [[g e]|] eqn:E; [discriminate|].
    intros H [|q] Hq; [exact E|]. apply (IH _ H). simpl in Hq. lia.
Qed.

(** With nothing to find, [re.sub] returns the content. *)
Lemma re_sub_nothing r repl s :
  re_search r s = None -> re_sub r repl s = s.
Proof.
  unfold re_search, re_sub.
  assert (Hgo : forall i, search_go r s i = None -> sub_go r repl s 0 = s).
  { induction s as [|c s IH]; intros i H; [reflexivity|].
    pose proof (search_go_None_inv _ _ _ H 0 (Nat.le_0_l _)) as H0.
    cbn [drop] in H0. cbn [search_go] in H. rewrite H0 in H.
    cbn [sub_go]. rewrite H0. f_equal. exact (IH _ H). }
  apply Hgo.
Qed.

End Matcher.

(** ** Spans located by a delimiter *)

Section Delimiter.
Variable c : ascii.

Lemma first_occurrence_split (s : list ascii) :
  In c s -> exists y z, s = y ++ c :: z /\ forallb (is_not c) y = true.
Proof.
  induction s as [|a s IH]; intros Hin; [contradiction|].
  destruct (Ascii.eqb_spec a c) as [->|Hne].
  - exists [], s. split; reflexivity.
  - destruct Hin as [->|Hin]; [contradiction|].
    destruct (IH Hin) as (y & z & -> & Hy).
    exists (a :: y), z. split; [reflexivity|]. simpl. rewrite Hy.
    unfold is_not. destruct (Ascii.eqb_spec a c); [contradiction|reflexivity].
Qed.

Lemma is_not_self : is_not c c = false.
Proof. unfold is_not. now rewrite Ascii.eqb_refl. Qed.

Lemma is_not_false (a : ascii) : is_not c a = false -> a = c.
Proof.
  unfold is_not. destruct (Ascii.eqb_spec a c); [auto|discriminate].
Qed.

Lemma close_rejects (a : ascii) (u : list ascii) :
  is_not c a = true ->
  re_match_here (CloseGroup1 (Lit [c] Accept)) (a :: u) = None.
Proof.
  unfold is_not. intros Ha. cbn [re_match_here strip_prefix].
  rewrite Ascii.eqb_sym. now destruct (Ascii.eqb a c).
Qed.

Lemma close_accepts (e : list ascii) :
  re_match_here (CloseGroup1 (Lit [c] Accept)) (c :: e) = Some (c :: e, e).
Proof. cbn [re_match_here strip_prefix]. now rewrite Ascii.eqb_refl. Qed.

Lemma until_delimiter_match (x e : list ascii) :
  x <> [] -> forallb (is_not c) x = true ->
  re_match_here (until_delimiter c) (x ++ c :: e) = Some (c :: e, e).
Proof.
  intros Hx Hall. destruct x as [|a x]; [contradiction|].
  simpl in Hall. apply andb_true_iff in Hall as [Ha Hall].
  cbn [until_delimiter re_match_here app]. rewrite Ha.
  rewrite greedy_all by (intros; now apply close_rejects).
  rewrite run_end_stop by (auto using is_not_self).
  apply close_accepts.
Qed.

Lemma until_delimiter_inv (t g e : list ascii) :
  re_match_here (until_delimiter c) t = Some (g, e) ->
  exists x, x <> [] /\ forallb (is_not c) x = true
            /\ t = x ++ c :: e /\ g = c :: e.
Proof.
  destruct t as [|a t]; [discriminate|]. cbn [until_delimiter re_match_here].
  destruct (is_not c a) eqn:Ha; [|discriminate].
  rewrite greedy_all by (intros; now apply close_rejects).
  destruct (run_end_suffix (is_not c) t) as (x & Ht & Hx).
  destruct (run_end (is_not c) t) as [|b u] eqn:Hrun; [discriminate|].
  pose proof (run_end_head _ _ _ _ Hrun) as Hb. apply is_not_false in Hb as ->.
  cbn [strip_prefix]. rewrite Ascii.eqb_refl. intros H. injection H as <- <-.
  exists (a :: x). repeat split.
  - discriminate.
  - simpl. now rewrite Ha, Hx.
  - simpl. now rewrite Ht at 1.
Qed.

End Delimiter.

Section Span.
Variables (L : list ascii) (c : ascii) (P : regex).

(** The rest of the pattern takes a non-empty run free of [c] and stops at
    the first [c], which closes group 1. *)
Hypothesis P_inv : forall t g e,
  re_match_here P t = Some (g, e) ->
  exists x, x <> [] /\ forallb (is_not c) x = true
            /\ t = x ++ c :: e /\ g = c :: e.
Hypothesis P_match : forall x e,
  x <> [] -> forallb (is_not c) x = true ->
  re_match_here P (x ++ c :: e) = Some (c :: e, e).

(** What [re.search] reports: the content splits at the match, group 1 is
    the literal and the run, and nothing matches further left. *)
Lemma search_span (content : list ascii) (m : re_match) :
  re_search (Lit L P) content = Some m ->
  exists a x e,
    content = a ++ (L ++ x) ++ c :: e
    /\ m_start m = length a
    /\ m_end m = length a + length (L ++ x) + 1
    /\ m_group1 m = L ++ x
    /\ x <> [] /\ forallb (is_not c) x = true
    /\ forall q, q < length a ->
         re_match_here (Lit L P) (drop q content) = None.
Proof.
  intros H. apply search_go_Some in H as (p & g & e & Hm & -> & Hp & Hmin).
  cbn [re_match_here] in Hm.
  destruct (strip_prefix L (drop p content)) as [t|] eqn:Hs; [|discriminate].
  apply strip_prefix_Some in Hs.
  destruct (P_inv _ _ _ Hm) as (x & Hx & Hall & -> & ->).
  exists (take p content), x, e.
  assert (Hlen : length (take p content) = p) by (rewrite length_take; lia).
  rewrite Hlen. unfold mk_match. cbn [m_start m_end m_group1].
  rewrite Hs. repeat split; auto.
  - rewrite <- app_assoc, <- Hs. symmetry. apply take_drop.
  - rewrite !length_app. cbn [length]. lia.
  - rewrite app_assoc.
    replace (length ((L ++ x) ++ c :: e) - length (c :: e))
      with (length (L ++ x)) by (rewrite (length_app (L ++ x)); lia).
    apply take_app_length.
Qed.

(** A copy of the span text further left would itself be matched. *)
Lemma span_copy_matches (a x e : list ascii) (q : nat) :
  x <> [] -> forallb (is_not c) x = true ->
  q < length a ->
  str_startswith (L ++ x) (drop q (a ++ (L ++ x) ++ c :: e)) = true ->
  exists res,
    re_match_here (Lit L P) (drop q (a ++ (L ++ x) ++ c :: e)) = Some res.
Proof.
  intros Hx Hall Hq Hst. apply str_startswith_true in Hst as [rest Hrest].
  assert (Hin : In c rest).
  { assert (Hlook : drop q (a ++ (L ++ x) ++ c :: e)
                      !! (length (L ++ x) + (length a - q)) = Some c).
    { rewrite lookup_drop, app_assoc. apply list_lookup_middle.
      rewrite !length_app. lia. }
    rewrite Hrest, lookup_app_r in Hlook by lia.
    apply list_elem_of_lookup_2, list_elem_of_In in Hlook. exact Hlook. }
  destruct (first_occurrence_split c rest Hin) as (y & z & -> & Hy).
  rewrite Hrest, <- app_assoc, re_match_here_Lit.
  rewrite app_assoc. eexists. apply P_match.
  - destruct x; [contradiction|discriminate].
  - rewrite forallb_app, Hall, Hy. reflexivity.
Qed.

Lemma span_first (content : list ascii) (m : re_match) :
  re_search (Lit L P) content = Some m ->
  no_occurrence_before (m_group1 m) content (m_start m).
Proof.
  intros H.
  destruct (search_span _ _ H) as (a & x & e & -> & -> & _ & -> & Hx & Hall & Hmin).
  intros q Hq.
  destruct (str_startswith (L ++ x) (drop q (a ++ (L ++ x) ++ c :: e)))
    eqn:Hst; [|reflexivity].
  destruct (span_copy_matches a x e q Hx Hall Hq Hst) as [res Hres].
  rewrite (Hmin q Hq) in Hres. discriminate.
Qed.

(** [content.replace(span, new)] for the span that [re.search] located:
    what precedes the match is kept, the span becomes [new], and every
    further copy of the span text in what follows is replaced as well. *)
Lemma span_replace (content new : list ascii) (m : re_match) :
  re_search (Lit L P) content = Some m ->
  let before := take (m_start m) content in
  let after := drop (m_start m + length (m_group1 m)) content in
  content = before ++ m_group1 m ++ after
  /\ str_replace (m_group1 m) new content =
       before ++ new ++ str_replace (m_group1 m) new after.
Proof.
  intros H. pose proof (span_first _ _ H) as Hfirst.
  destruct (search_span _ _ H) as (a & x & e & Hc & Hs & _ & Hg & Hx & _).
  intros before after.
  assert (Hbefore : before = a).
  { unfold before. rewrite Hs, Hc. apply take_app_length. }
  assert (Hafter : after = c :: e).
  { unfold after. rewrite Hs, Hg, Hc, app_assoc, <- length_app.
    apply drop_app_length. }
  assert (Hsplit : content = before ++ m_group1 m ++ after)
    by (rewrite Hbefore, Hafter, Hg; exact Hc).
  split; [exact Hsplit|].
  rewrite Hsplit at 1. apply str_replace_first.
  - rewrite Hg. destruct x; [contradiction|]. destruct L; discriminate.
  - rewrite <- Hsplit. replace (length before) with (m_start m); [exact Hfirst|].
    rewrite Hbefore. exact Hs.
Qed.

End Span.

(** ** The spans the scripts rewrite *)

Section Rewrites.

Lemma is_space_not_paren (a : ascii) :
  is_space a = true -> is_not ")" a = true.
Proof.
  intros H. unfold is_not. destruct (Ascii.eqb_spec a ")") as [->|]; [|reflexivity].
  vm_compute in H. discriminate.
Qed.

(** In the call pattern the white space after the parenthesis belongs to the
    argument text whichever way [\s*] and [[^)]+] share it. *)
Lemma spaces_join_arguments (t : list ascii) :
  re_match_here (Star is_space (until_delimiter ")")) t =
    re_match_here (until_delimiter ")") t.
Proof.
  cbn [re_match_here]. apply greedy_stable. intros a u [g e] Ha Hu.
  apply until_delimiter_inv in Hu as (x & Hx & Hall & -> & ->).
  apply (until_delimiter_match ")" (a :: x) e); [discriminate|].
  simpl. now rewrite is_space_not_paren, Hall.
Qed.

Lemma call_tail_inv (t g e : list ascii) :
  re_match_here (Star is_space (until_delimiter ")")) t = Some (g, e) ->
  exists x, x <> [] /\ forallb (is_not ")") x = true
            /\ t = x ++ ")"%char :: e /\ g = ")"%char :: e.
Proof. rewrite spaces_join_arguments. apply until_delimiter_inv. Qed.

Lemma call_tail_match (x e : list ascii) :
  x <> [] -> forallb (is_not ")") x = true ->
  re_match_here (Star is_space (until_delimiter ")")) (x ++ ")"%char :: e) =
    Some (")"%char :: e, e).
Proof. rewrite spaces_join_arguments. apply until_delimiter_match. Qed.

Lemma struct_span (content handler new : list ascii) (m : re_match) :
  re_search (AddLogging.struct_pattern handler) content = Some m ->
  located content m
  /\ str_replace (m_group1 m) new content = rewritten_at content m new.
Proof.
  apply (span_replace _ "}" (until_delimiter "}")
           (until_delimiter_inv "}") (until_delimiter_match "}")).
Qed.

Lemma init_span (content handler new : list ascii) (m : re_match) :
  re_search (AddLogging.init_pattern handler) content = Some m ->
  located content m
  /\ str_replace (m_group1 m) new content = rewritten_at content m new.
Proof.
  apply (span_replace _ "}" (until_delimiter "}")
           (until_delimiter_inv "}") (until_delimiter_match "}")).
Qed.

Lemma call_span (content handler new : list ascii) (m : re_match) :
  re_search (call_pattern handler) content = Some m ->
  located content m
  /\ str_replace (m_group1 m) new content = rewritten_at content m new.
Proof.
  apply (span_replace _ ")" (Star is_space (until_delimiter ")"))
           call_tail_inv call_tail_match).
Qed.

(** The two inner tests of loop 3 repeat the outer one. *)
Lemma logger_absent_inner (fields : list ascii) :
  str_in (py "logger") fields = false ->
  negb (str_in (py "\tlogger") fields)
  && negb (str_in (py "logger *") fields) = true.
Proof.
  intros H.
  assert (H1 : str_in (py "\tlogger") fields = false)
    by exact (str_in_part_absent [TAB] (py "logger") [] fields H).
  assert (H2 : str_in (py "logger *") fields = false)
    by exact (str_in_part_absent [] (py "logger") (py " *") fields H).
  now rewrite H1, H2.
Qed.

End Rewrites.

(** ** Files that no rule touches *)

Section Untouched.
Import AddLogging.

Lemma mentions_none_In names c h :
  mentions_none names c = true -> In h names -> str_in h c = false.
Proof.
  unfold mentions_none. rewrite forallb_forall. intros H Hin.
  apply negb_true_iff, H, Hin.
Qed.

Lemma fold_left_fixed {A B : Type} (f : A -> B -> A) (xs : list B) (a : A) :
  (forall x, In x xs -> f a x = a) -> fold_left f xs a = a.
Proof.
  induction xs as [|x xs IH]; intros H; simpl; [reflexivity|].
  rewrite H by (left; reflexivity). apply IH.
  intros y Hy. apply H. right. exact Hy.
Qed.

Lemma add_import_absent c :
  str_in import_anchor c = false -> add_import c = c.
Proof.
  intros H. unfold add_import.
  destruct (negb (str_in (py "log/slog") c)); [|reflexivity].
  apply str_replace_absent, H.
Qed.

Lemma replace_todos_absent c :
  str_in todo_marker c = false -> replace_todos c = c.
Proof. intros H. apply re_sub_absent, H. Qed.

Lemma replace_todos_nothing c :
  re_search todo_pattern c = None -> replace_todos c = c.
Proof. apply re_sub_nothing. Qed.

Lemma add_field_absent c h : str_in h c = false -> add_field c h = c.
Proof.
  intros H. unfold add_field, struct_pattern.
  rewrite re_search_absent; [reflexivity|].
  apply str_in_part_absent, H.
Qed.

Lemma add_param_absent c h : str_in h c = false -> add_param c h = c.
Proof.
  intros H. unfold add_param, ctor_pattern.
  rewrite re_search_absent; [reflexivity|].
  apply str_in_part_absent, H.
Qed.

Lemma transform_untouched c :
  str_in import_anchor c = false ->
  re_search todo_pattern c = None ->
  mentions_none handlers c = true ->
  transform c = c.
Proof.
  intros Hi Ht Hh. unfold transform.
  rewrite add_import_absent, replace_todos_nothing by assumption.
  rewrite (fold_left_fixed add_field).
  - apply fold_left_fixed. intros h Hin.
    apply add_param_absent. eapply mentions_none_In; eassumption.
  - intros h Hin.
    apply add_field_absent. eapply mentions_none_In; eassumption.
Qed.

Lemma add_arg_absent c h :
  str_in h c = false -> UpdateMains.add_arg c h = c.
Proof.
  intros H. unfold UpdateMains.add_arg, call_pattern.
  rewrite re_search_absent; [reflexivity|].
  apply (str_in_part_absent []), H.
Qed.

Lemma mains_transform_untouched c :
  mentions_none constructors c = true -> UpdateMains.transform c = c.
Proof.
  intros H. apply fold_left_fixed. intros h Hin.
  apply add_arg_absent. eapply mentions_none_In; eassumption.
Qed.

(** A rule whose test already holds changes nothing; with every test
    satisfied the whole transform returns the content. *)
Lemma satisfied_postconditions_no_op c :
  postconditions_hold c = true -> transform c = c.
Proof.
  unfold postconditions_hold. rewrite !andb_true_iff.
  intros [[[Hi Ht] Hf] Hp]. unfold transform.
  assert (E1 : add_import c = c).
  { unfold add_import, import_done in *.
    destruct (str_in (py "log/slog") c); [reflexivity|].
    apply str_replace_absent. now apply negb_true_iff in Hi. }
  assert (E2 : replace_todos c = c).
  { unfold replace_todos, todos_done in *.
    destruct (re_search todo_pattern c) eqn:E; [discriminate|].
    now apply re_sub_nothing. }
  rewrite E1, E2. rewrite (fold_left_fixed add_field).
  - apply fold_left_fixed. intros h Hin.
    rewrite forallb_forall in Hp. specialize (Hp h Hin).
    unfold add_param, param_done in *.
    destruct (re_search (ctor_pattern h) c); [|reflexivity].
    now rewrite Hp.
  - intros h Hin.
    rewrite forallb_forall in Hf. specialize (Hf h Hin).
    unfold add_field, field_done in *.
    destruct (re_search (struct_pattern h) c); [|reflexivity].
    now rewrite Hf.
Qed.

End Untouched.

(** ** Running the programs on one file *)

Section Programs.

Lemma update_handler_file_run w path c :
  files w !! path = Some c ->
  update_handler_file path w =
    if bool_decide (AddLogging.transform c ≠ c)
    then (Returned true, after_write path (AddLogging.transform c) w)
    else (Returned false, w).
Proof.
  intros H. unfold update_handler_file, mbind, io_bind, read_file.
  rewrite H. destruct (bool_decide _); reflexivity.
Qed.

Lemma update_main_file_run w path c :
  files w !! path = Some c ->
  update_main_file path w =
    if bool_decide (UpdateMains.transform c ≠ c)
    then (Returned true, after_write path (UpdateMains.transform c) w)
    else (Returned false, w).
Proof.
  intros H. unfold update_main_file, mbind, io_bind, read_file.
  rewrite H. destruct (bool_decide _); reflexivity.
Qed.

Lemma update_test_file_run w path count c :
  files w !! path = Some c ->
  update_test_file path count w =
    if bool_decide (UpdateTests.transform c ≠ c)
    then (Returned (count + 1),
          after_print (Updated path)
            (after_write path (UpdateTests.transform c) w))
    else (Returned count, w).
Proof.
  intros H. unfold update_test_file, mbind, io_bind, read_file.
  rewrite H. destruct (bool_decide _); reflexivity.
Qed.

Lemma fix_healthchecks_run w c :
  files w !! compose_file = Some c ->
  fix_healthchecks_main w =
    (Returned tt,
     after_print AddedStartPeriod
       (after_write compose_file (FixHealthchecks.transform c) w)).
Proof.
  intros H. unfold fix_healthchecks_main, mbind, io_bind, read_file.
  rewrite H. reflexivity.
Qed.

(** A missing file stops the program with the error of [open]. *)
Lemma update_handler_file_missing w path :
  files w !! path = None ->
  update_handler_file path w = (Raised (FileNotFoundError path), w).
Proof.
  intros H. unfold update_handler_file, mbind, io_bind, read_file.
  rewrite H. reflexivity.
Qed.

End Programs.

(** ** Write-back *)

(** C2. Conditional write-back.  For a file whose content [c] was read, each
    of the three rewriters performs one write of the complete transformed
    content exactly when that content differs from [c]: the write log gains
    the one entry for the path, and the file holds the transformed content.
    When no rule changed anything the world is left as it was (no write) and
    the file is reported unchanged ([False], respectively an unchanged count
    and no report).  The write log grows if and only if the content
    changed. *)
Theorem conditional_write_back (w : world) (path : string) (c : list ascii) :
  files w !! path = Some c ->
  (let c' := AddLogging.transform c in
   let r := update_handler_file path w in
   (c' ≠ c ->
    r.1 = Returned true
    /\ written r.2 = written w ++ [(path, c')]
    /\ files r.2 = <[path := c']> (files w)
    /\ printed r.2 = printed w)
   /\ (c' = c -> r = (Returned false, w))
   /\ (written r.2 ≠ written w <-> c' ≠ c))
  /\ (let c' := UpdateMains.transform c in
      let r := update_main_file path w in
      (c' ≠ c ->
       r.1 = Returned true
       /\ written r.2 = written w ++ [(path, c')]
       /\ files r.2 = <[path := c']> (files w)
       /\ printed r.2 = printed w)
      /\ (c' = c -> r = (Returned false, w))
      /\ (written r.2 ≠ written w <-> c' ≠ c))
  /\ (let c' := UpdateTests.transform c in
      forall count,
        let r := update_test_file path count w in
        (c' ≠ c ->
         r.1 = Returned (count + 1)
         /\ written r.2 = written w ++ [(path, c')]
         /\ files r.2 = <[path := c']> (files w)
         /\ printed r.2 = printed w ++ [Updated path])
        /\ (c' = c -> r = (Returned count, w))
        /\ (written r.2 ≠ written w <-> c' ≠ c)).
Proof.
  intros H.
  assert (Hgrow : forall (l : list (string * list ascii)) e, l ++ [e] ≠ l).
  { intros l e E. apply (f_equal length) in E. rewrite length_app in E.
    cbn in E. lia. }
  split; [|split]; cbn zeta; [| |intros count].
  - rewrite (update_handler_file_run w path c H).
    destruct (bool_decide_reflect (AddLogging.transform c ≠ c)) as [Hc|Hc].
    + cbn [fst snd written files printed after_write after_print].
      split; [intros _; repeat split|].
      split; [intros E; contradiction|].
      split; [auto|]. intros _. apply Hgrow.
    + cbn [fst snd].
      split; [intros E; contradiction|]. split; [reflexivity|].
      split; [intros E; now contradiction E|intros E; contradiction].
  - rewrite (update_main_file_run w path c H).
    destruct (bool_decide_reflect (UpdateMains.transform c ≠ c)) as [Hc|Hc].
    + cbn [fst snd written files printed after_write after_print].
      split; [intros _; repeat split|].
      split; [intros E; contradiction|].
      split; [auto|]. intros _. apply Hgrow.
    + cbn [fst snd].
      split; [intros E; contradiction|]. split; [reflexivity|].
      split; [intros E; now contradiction E|intros E; contradiction].
  - rewrite (update_test_file_run w path count c H).
    destruct (bool_decide_reflect (UpdateTests.transform c ≠ c)) as [Hc|Hc].
    + cbn [fst snd written files printed after_write after_print].
      split; [intros _; repeat split|].
      split; [intros E; contradiction|].
      split; [auto|]. intros _. apply Hgrow.
    + cbn [fst snd].
      split; [intros E; contradiction|]. split; [reflexivity|].
      split; [intros E; now contradiction E|intros E; contradiction].
Qed.

Lemma conditional_write_back_witness :
  (let r := update_main_file "main.go" (one_file "main.go" call_without_logger)
   in
   r.1 = Returned true
   /\ written r.2 = [("main.go"%string, py "h := NewFXHandler(1,\n\t\tlogger,)")]
   /\ files r.2 =
        <["main.go"%string := py "h := NewFXHandler(1,\n\t\tlogger,)"]>
          (files (one_file "main.go" call_without_logger))
   /\ printed r.2 = [])
  /\ update_handler_file "handler.go" (one_file "handler.go" plain_go) =
       (Returned false, one_file "handler.go" plain_go).
Proof.
  split.
  - destruct (conditional_write_back (one_file "main.go" call_without_logger)
                "main.go" call_without_logger eq_refl) as (_ & (Hm & _) & _).
    apply Hm. vm_compute. discriminate.
  - destruct (conditional_write_back (one_file "handler.go" plain_go)
                "handler.go" plain_go eq_refl) as ((_ & Hh & _) & _).
    apply Hh. reflexivity.
Defined.

(** The write log grows exactly when the content changed. *)
Corollary written_iff_changed (w : world) (path : string) (c : list ascii) :
  files w !! path = Some c ->
  written (update_handler_file path w).2 ≠ written w
  <-> AddLogging.transform c ≠ c.
Proof.
  intros H. rewrite (update_handler_file_run w path c H).
  destruct (bool_decide_reflect (AddLogging.transform c ≠ c)) as [Hc|Hc];
    cbn [snd after_write written].
  - split; [auto|]. intros _ E.
    apply (f_equal length) in E. rewrite length_app in E. simpl in E. lia.
  - split; [intros E; now contradiction E|]. intros E. contradiction.
Qed.

(** The import rule does not look at the handler names: a file that holds
    the import anchor, which is the text that the import rule looks for, is
    rewritten also when it names no handler of the catalog. *)
Lemma import_rule_ignores_handler_names :
  mentions_none AddLogging.handlers import_only = true
  /\ AddLogging.transform import_only =
       py "package grpc\n\nimport (\n\t\qcontext\q\n\t\qlog/slog\q\n)\n"
  /\ AddLogging.transform import_only ≠ import_only
  /\ (update_handler_file "handler.go" (one_file "handler.go" import_only)).1
     = Returned true.
Proof.
  split; [reflexivity|]. split; [reflexivity|]. split.
  - vm_compute. discriminate.
  - rewrite (update_handler_file_run _ _ import_only) by reflexivity.
    rewrite bool_decide_true; [reflexivity|]. vm_compute. discriminate.
Qed.

(** C7. No-op on non-matching files.  A file that contains none of the
    texts that the rules look for -- the import anchor, a match of the TODO
    pattern, a handler name of the catalog -- is left identical by
    [update_handler_file]: the transform returns the content as it is,
    nothing is written, and the function returns [False]; a run over this
    file reports it as needing no change and counts no updated file. *)
Theorem no_op_on_non_matching_files (w : world) (path : string)
    (c : list ascii) :
  files w !! path = Some c ->
  str_in AddLogging.import_anchor c = false ->
  re_search AddLogging.todo_pattern c = None ->
  mentions_none AddLogging.handlers c = true ->
  AddLogging.transform c = c
  /\ update_handler_file path w = (Returned false, w)
  /\ add_logging_main [path] w =
       (Returned tt, after_print (Total 0) (after_print (NoChangesNeeded path) w)).
Proof.
  intros Hfile Hi Ht Hh.
  pose proof (transform_untouched c Hi Ht Hh) as E. split; [exact E|].
  assert (Hrun : update_handler_file path w = (Returned false, w)).
  { rewrite (update_handler_file_run w path c Hfile).
    rewrite bool_decide_false; [reflexivity|]. intros Hne. now apply Hne. }
  split; [exact Hrun|].
  unfold add_logging_main, update_all, for_each, mbind, io_bind.
  rewrite Hrun. reflexivity.
Qed.

Lemma no_op_on_non_matching_files_witness :
  AddLogging.transform plain_go = plain_go
  /\ update_handler_file "handler.go" (one_file "handler.go" plain_go) =
       (Returned false, one_file "handler.go" plain_go)
  /\ add_logging_main ["handler.go"%string] (one_file "handler.go" plain_go) =
       (Returned tt,
        after_print (Total 0)
          (after_print (NoChangesNeeded "handler.go")
             (one_file "handler.go" plain_go))).
Proof.
  apply (no_op_on_non_matching_files (one_file "handler.go" plain_go)
           "handler.go" plain_go); reflexivity.
Defined.

(** C9. The compose-file pass writes [docker-compose.yml] back whatever the
    substitution did: the write log gains one entry with the substituted
    content, also when that content is identical to the content read. *)
Theorem healthcheck_pass_always_writes (w : world) (c : list ascii) :
  files w !! compose_file = Some c ->
  fix_healthchecks_main w =
    (Returned tt,
     after_print AddedStartPeriod
       (after_write compose_file (FixHealthchecks.transform c) w))
  /\ written (fix_healthchecks_main w).2 =
       written w ++ [(compose_file, FixHealthchecks.transform c)]
  /\ (FixHealthchecks.transform c = c ->
      written (fix_healthchecks_main w).2 = written w ++ [(compose_file, c)]).
Proof.
  intros H. rewrite (fix_healthchecks_run w c H). cbn [snd].
  split; [reflexivity|]. split; [reflexivity|].
  intros ->. reflexivity.
Qed.

Lemma healthcheck_pass_always_writes_witness :
  FixHealthchecks.transform compose_without_healthcheck =
    compose_without_healthcheck
  /\ written
       (fix_healthchecks_main
          (one_file compose_file compose_without_healthcheck)).2 =
     [(compose_file, compose_without_healthcheck)].
Proof.
  split; [reflexivity|].
  apply (healthcheck_pass_always_writes
           (one_file compose_file compose_without_healthcheck)
           compose_without_healthcheck); reflexivity.
Defined.

(** ** Scenarios *)



(** The guard of the main-file updater: a first call site that mentions
    [logger] in any case is not rewritten. *)
Lemma add_arg_guard (c h : list ascii) (m : re_match) :
  re_search (call_pattern h) c = Some m ->
  str_in (py "logger") (str_lower (m_group1 m)) = true ->
  UpdateMains.add_arg c h = c.
Proof. intros Hm Hl. unfold UpdateMains.add_arg. now rewrite Hm, Hl. Qed.

(** The guard of the test-file updater. *)
Lemma patch_match_guard (c : list ascii) (m : re_match) :
  str_in (py "logger") (str_lower (m_group1 m)) = true ->
  UpdateTests.patch_match c m = c.
Proof. intros Hl. unfold UpdateTests.patch_match. now rewrite Hl. Qed.

(** In neither updater does the call [NewFXHandler(1)] become the one-line
    text [NewFXHandler(1, logger)]: the logger goes on a line of its own. *)
Lemma call_argument_not_inline :
  UpdateMains.transform (scenario_call (py "NewFXHandler"))
    ≠ py "NewFXHandler(1, logger)"
  /\ UpdateTests.transform (scenario_call (py "NewFXHandler"))
       ≠ py "NewFXHandler(1, logger)".
Proof. split; vm_compute; discriminate. Qed.

(** Scenario D in the main-file updater: for every constructor name of the
    catalog the call [{h}(1)], alone in a file, becomes [{h}(1,] followed by
    a line feed, two tabs and [logger,)]; and in both updaters the call
    [{h}(1, logger)], alone in a file, is left as it is. *)
Theorem call_argument_injection (h : list ascii) :
  In h constructors ->
  UpdateMains.transform (scenario_call h) = h ++ py "(1,\n\t\tlogger,)"
  /\ UpdateMains.transform (scenario_call_with_logger h) =
       scenario_call_with_logger h
  /\ UpdateTests.transform (scenario_call_with_logger h) =
       scenario_call_with_logger h.
Proof.
  intros Hin. cbn [constructors map In] in Hin.
  repeat (destruct Hin as [<-|Hin]; [vm_compute; auto|]).
  contradiction.
Qed.

Lemma call_argument_injection_witness :
  UpdateMains.transform (scenario_call (py "NewFXHandler")) =
    py "NewFXHandler(1,\n\t\tlogger,)"
  /\ UpdateMains.transform (scenario_call_with_logger (py "NewFXHandler")) =
       scenario_call_with_logger (py "NewFXHandler")
  /\ UpdateTests.transform (scenario_call_with_logger (py "NewFXHandler")) =
       scenario_call_with_logger (py "NewFXHandler").
Proof.
  apply (call_argument_injection (py "NewFXHandler")).
  vm_compute. auto 10.
Defined.

(** The test-file updater splices the new arguments over the whole match,
    closing parenthesis included. *)
Remark test_updater_drops_parenthesis :
  UpdateTests.transform (scenario_call (py "NewFXHandler")) =
    py "NewFXHandler(1,\n\t\tlogger,".
Proof. reflexivity. Qed.

(** C5. Call-argument injection, Scenario D, fails in two ways.  The
    test-file updater turns the call [NewFXHandler(1)] into a text without
    its closing parenthesis: it splices the new arguments, which are built
    from group 1, over the whole match, which ends with the parenthesis.  The
    main-file updater, which replaces group 1 only, keeps the parenthesis;
    but it replaces every copy of the text of group 1, so that a later call
    that already names the logger and starts with that text is rewritten
    too. *)
Theorem call_sites_rewritten_wrongly :
  UpdateTests.transform (scenario_call (py "NewFXHandler")) =
    py "NewFXHandler(1,\n\t\tlogger,"
  /\ UpdateMains.transform (scenario_call (py "NewFXHandler")) =
       py "NewFXHandler(1,\n\t\tlogger,)"
  /\ UpdateTests.transform test_go =
       py "package fx\n\nimport (\n\t\qlog/slog\q\n\t\qtesting\q\n)\n\nfunc TestConvert(t *testing.T) {\n\th := NewFXHandler(1,\n\t\tlogger,\n\t_ = h\n}\n"
  /\ UpdateMains.transform test_go =
       py "package fx\n\nimport (\n\t\qtesting\q\n)\n\nfunc TestConvert(t *testing.T) {\n\th := NewFXHandler(1,\n\t\tlogger,)\n\t_ = h\n}\n"
  /\ UpdateMains.transform call_then_logged_call =
       py "NewFXHandler(1,\n\t\tlogger,)\nNewFXHandler(1,\n\t\tlogger,, logger)"
  /\ UpdateTests.transform call_then_logged_call =
       py "NewFXHandler(1,\n\t\tlogger,\nNewFXHandler(1, logger)".
Proof. repeat split; reflexivity. Qed.

(** ** Where the rewriting goes wrong *)

(** C1.  On [span_inside_marker] a second application of the transform of
    [update_handler_file] changes the content again: the first application
    rewrites both copies of the struct span text, the second copy sits inside
    the only [log/slog] of the file, and the second application then adds the
    import.  The second run writes and returns [True]. *)
Theorem second_run_changes_again :
  str_in (py "log/slog") span_inside_marker = true
  /\ AddLogging.transform span_inside_marker =
       py "package grpc\n\nimport (\n\t\qcontext\q\n)\n\ntype FXHandler struct {l\n\tlogger               *slog.Logger}\n\n// was: type FXHandler struct {l\n\tlogger               *slog.Loggerog/slog}\n"
  /\ str_in (py "log/slog") (AddLogging.transform span_inside_marker) = false
  /\ AddLogging.transform (AddLogging.transform span_inside_marker) =
       py "package grpc\n\nimport (\n\t\qcontext\q\n\t\qlog/slog\q\n)\n\ntype FXHandler struct {l\n\tlogger               *slog.Logger}\n\n// was: type FXHandler struct {l\n\tlogger               *slog.Loggerog/slog}\n"
  /\ AddLogging.transform (AddLogging.transform span_inside_marker)
       ≠ AddLogging.transform span_inside_marker
  /\ (update_handler_file "handler.go"
        (one_file "handler.go" (AddLogging.transform span_inside_marker))).1
     = Returned true.
Proof.
  do 4 (split; [reflexivity|]). split.
  - vm_compute. discriminate.
  - rewrite (update_handler_file_run _ _
               (AddLogging.transform span_inside_marker)) by reflexivity.
    rewrite bool_decide_true; [reflexivity|]. vm_compute. discriminate.
Qed.

(** When the first application leaves every test of the rules satisfied,
    the second application changes nothing and nothing is written. *)
Lemma second_run_no_op_when_tests_hold (w : world) (path : string)
    (c : list ascii) :
  files w !! path = Some (AddLogging.transform c) ->
  postconditions_hold (AddLogging.transform c) = true ->
  AddLogging.transform (AddLogging.transform c) = AddLogging.transform c
  /\ update_handler_file path w = (Returned false, w).
Proof.
  intros Hfile Hpost.
  pose proof (satisfied_postconditions_no_op _ Hpost) as E. split; [exact E|].
  rewrite (update_handler_file_run w path _ Hfile).
  rewrite bool_decide_false; [reflexivity|]. intros Hne. now apply Hne.
Qed.

(** On [handler_go] the four rules all fire, and the second application is
    a no-op. *)
Example handler_go_second_run :
  AddLogging.transform handler_go =
    py "package grpc\n\nimport (\n\t\qcontext\q\n\t\qlog/slog\q\n\t\qfmt\q\n)\n\ntype FXHandler struct {\n\tpb.UnimplementedFXServiceServer\n\tconvert app.ConvertUseCase\n\n\tlogger               *slog.Logger}\n\nfunc NewFXHandler(\n\tconvert app.ConvertUseCase,\n\tlogger *slog.Logger,\n) *FXHandler {\n\treturn &FXHandler{\n\t\tconvert: convert,\n\t\n\t\tlogger:               logger,}\n}\n\nfunc (h *FXHandler) Convert(ctx context.Context) (*pb.Reply, error) {\n\tout, err := h.convert.Run(ctx)\n\tif err != nil {\n\t\th.logger.Error(\qhandler error\q, \qerror\q, err)\n\t\treturn nil, status.Error(codes.Internal, \qinternal error\q)\n\t}\n\treturn out, nil\n}\n"
  /\ postconditions_hold (AddLogging.transform handler_go) = true
  /\ AddLogging.transform (AddLogging.transform handler_go) =
       AddLogging.transform handler_go.
Proof. repeat split; reflexivity. Qed.

(** C3.  A parameter list that ends with a comma not followed by a line feed
    gets a second comma: [new_params] tests [endswith] for a comma and a line
    feed, where [new_args] strips the white space first.  And the entry
    added to the struct literal is never preceded by a comma, also after an
    entry that has none. *)
Theorem parameter_after_comma_doubles_separator :
  AddLogging.new_params (py "func NewFXHandler(x int,") =
    py "func NewFXHandler(x int,,\n\tlogger *slog.Logger"
  /\ AddLogging.transform trailing_comma_constructor =
       py "func NewFXHandler(x int,,\n\tlogger *slog.Logger) *FXHandler { return &FXHandler{x: x,\n\t\tlogger:               logger,} }"
  /\ new_args (py "NewFXHandler(x,") = py "NewFXHandler(x,\n\t\tlogger,"
  /\ AddLogging.add_init (py "return &FXHandler{x: x}") (py "FXHandler") =
       py "return &FXHandler{x: x\n\t\tlogger:               logger,}".
Proof. repeat split; reflexivity. Qed.

(** ** Substitution of the located span *)

(** C6 as stated fails: with two copies of the span text in the file, the
    field rule gives something else than the substitution of the first
    literal occurrence. *)
Lemma first_occurrence_only_fails :
  let span := py "type FXHandler struct {a" in
  re_search (AddLogging.struct_pattern (py "FXHandler")) two_struct_copies =
    Some {| m_start := 0; m_end := 25; m_group1 := span |}
  /\ AddLogging.add_field two_struct_copies (py "FXHandler")
       ≠ replace_first span (span ++ AddLogging.logger_field)
           two_struct_copies.
Proof. split; [reflexivity|]. vm_compute. discriminate. Qed.

(** C6, amended.  When the field rule, the initialisation rule or the
    call-argument rule of the main-file updater rewrites the span that
    [re.search] located, the span lies in the content at the start of the
    match, everything before the match is kept, the span is replaced by the
    rewritten span, and every further occurrence of the span text after the
    match is replaced by the rewritten span as well.  The parameter rule
    replaces the text of the parameter span throughout the content and then
    hands the result to the initialisation rule, which rewrites its own
    span. *)
Theorem span_text_replaced_everywhere (content handler : list ascii)
    (m : re_match) :
  (re_search (AddLogging.struct_pattern handler) content = Some m ->
   str_in (py "logger") (m_group1 m) = false ->
   located content m
   /\ AddLogging.add_field content handler =
        rewritten_at content m (m_group1 m ++ AddLogging.logger_field))
  /\ (re_search (AddLogging.init_pattern handler) content = Some m ->
      str_in (py "logger:") (m_group1 m) = false ->
      str_in (py "logger *") (m_group1 m) = false ->
      located content m
      /\ AddLogging.add_init content handler =
           rewritten_at content m (m_group1 m ++ AddLogging.logger_init))
  /\ (re_search (call_pattern handler) content = Some m ->
      str_in (py "logger") (str_lower (m_group1 m)) = false ->
      located content m
      /\ UpdateMains.add_arg content handler =
           rewritten_at content m (new_args (m_group1 m)))
  /\ (re_search (AddLogging.ctor_pattern handler) content = Some m ->
      str_in (py "logger") (m_group1 m) = false ->
      AddLogging.add_param content handler =
        AddLogging.add_init
          (str_replace (m_group1 m) (AddLogging.new_params (m_group1 m))
             content)
          handler).
Proof.
  split; [|split; [|split]].
  - intros Hm Hl.
    destruct (struct_span content handler
                (m_group1 m ++ AddLogging.logger_field) m Hm) as [Hloc Hrep].
    split; [exact Hloc|]. unfold AddLogging.add_field.
    rewrite Hm, Hl. cbn [negb]. rewrite (logger_absent_inner _ Hl).
    exact Hrep.
  - intros Hm Hl1 Hl2.
    destruct (init_span content handler
                (m_group1 m ++ AddLogging.logger_init) m Hm) as [Hloc Hrep].
    split; [exact Hloc|]. unfold AddLogging.add_init.
    rewrite Hm, Hl1, Hl2. exact Hrep.
  - intros Hm Hl.
    destruct (call_span content handler (new_args (m_group1 m)) m Hm)
      as [Hloc Hrep].
    split; [exact Hloc|]. unfold UpdateMains.add_arg.
    rewrite Hm, Hl. exact Hrep.
  - intros Hm Hl. unfold AddLogging.add_param. now rewrite Hm, Hl.
Qed.

Lemma span_text_replaced_everywhere_witness :
  let m := {| m_start := 0; m_end := 25;
              m_group1 := py "type FXHandler struct {a" |} in
  located two_struct_copies m
  /\ AddLogging.add_field two_struct_copies (py "FXHandler") =
       rewritten_at two_struct_copies m
         (m_group1 m ++ AddLogging.logger_field).
Proof.
  intros m.
  apply (span_text_replaced_everywhere two_struct_copies (py "FXHandler") m);
    reflexivity.
Defined.

(** C10 as stated fails: a second call with the same text as the first is
    rewritten along with it. *)
Lemma repeated_call_rewritten_twice :
  UpdateMains.transform repeated_call =
    py "NewFXHandler(a,\n\t\tlogger,)\nNewFXHandler(a,\n\t\tlogger,)"
  /\ UpdateMains.transform repeated_call
       ≠ py "NewFXHandler(a,\n\t\tlogger,)\nNewFXHandler(a)".
Proof. split; [reflexivity|]. vm_compute. discriminate. Qed.

(** C10, amended.  For a constructor name, the main-file updater looks at the
    first match of the call pattern only.  When the text of that span does
    not occur again after the match, the rule rewrites this one call site:
    the content before the match and the whole content after the span, later
    calls to the same constructor included, stay as they are. *)
Theorem later_calls_unchanged (content handler : list ascii) (m : re_match) :
  re_search (call_pattern handler) content = Some m ->
  str_in (py "logger") (str_lower (m_group1 m)) = false ->
  str_in (m_group1 m) (drop (m_start m + length (m_group1 m)) content)
    = false ->
  UpdateMains.add_arg content handler =
    take (m_start m) content ++ new_args (m_group1 m)
      ++ drop (m_start m + length (m_group1 m)) content.
Proof.
  intros Hm Hl Hafter. unfold UpdateMains.add_arg. rewrite Hm, Hl.
  destruct (call_span content handler (new_args (m_group1 m)) m Hm)
    as [_ ->].
  unfold rewritten_at. now rewrite str_replace_absent.
Qed.

Lemma later_calls_unchanged_witness :
  UpdateMains.add_arg two_calls (py "NewFXHandler") =
    py "NewFXHandler(a,\n\t\tlogger,)\nNewFXHandler(b)".
Proof.
  apply (later_calls_unchanged two_calls (py "NewFXHandler")
           {| m_start := 0; m_end := 15;
              m_group1 := py "NewFXHandler(a" |}); reflexivity.
Defined.

(** The test-file updater goes through every match of [re.finditer]. *)
Remark test_updater_visits_every_call :
  UpdateTests.transform two_calls =
    py "NewFXHandler(a,\n\t\tlogger,\nNewFXHandler(b,\n\t\tlogger,".
Proof. reflexivity. Qed.

(** ** The healthcheck pass *)

Section Healthchecks.
Import FixHealthchecks.

Lemma greedy_ext {R : Type} (cls : ascii -> bool)
    (k1 k2 : list ascii -> option R) (s : list ascii) :
  (forall u, k1 u = k2 u) -> greedy cls k1 s = greedy cls k2 s.
Proof.
  intros H. induction s as [|a s IH]; simpl; [apply H|].
  rewrite IH, H. reflexivity.
Qed.

(** When at most one split of the run lets [f] go through, what comes after
    [f] cannot make the matcher settle for another split. *)
Lemma greedy_unique {R : Type} (cls : ascii -> bool)
    (f : list ascii -> option (list ascii)) (K : list ascii -> option R)
    (s : list ascii) :
  (forall x1 u1 x2 u2,
     s = x1 ++ u1 -> s = x2 ++ u2 ->
     forallb cls x1 = true -> forallb cls x2 = true ->
     is_Some (f u1) -> is_Some (f u2) -> u1 = u2) ->
  greedy cls (fun u => f u ≫= K) s = greedy cls f s ≫= K.
Proof.
  induction s as [|a s IH]; intros Huniq; simpl; [reflexivity|].
  destruct (cls a) eqn:Ha; [|reflexivity].
  rewrite IH.
  2:{ intros x1 u1 x2 u2 E1 E2 H1 H2.
      apply (Huniq (a :: x1) u1 (a :: x2) u2); simpl; rewrite ?Ha;
        simpl; congruence. }
  destruct (greedy cls f s) as [v|] eqn:Eg; simpl; [|reflexivity].
  destruct (K v) eqn:EK; [reflexivity|].
  destruct (f (a :: s)) as [v'|] eqn:Ef; [|reflexivity]. exfalso.
  apply greedy_Some in Eg as (x & u & -> & Hx & Hu).
  assert (E : u = a :: x ++ u).
  { apply (Huniq (a :: x) u [] (a :: x ++ u)); simpl; rewrite ?Ha;
      simpl; eauto. }
  apply (f_equal length) in E. simpl in E. rewrite length_app in E. lia.
Qed.

Lemma first_delimiter_unique (c : ascii) (p1 r1 p2 r2 : list ascii) :
  forallb (is_not c) p1 = true -> forallb (is_not c) p2 = true ->
  p1 ++ c :: r1 = p2 ++ c :: r2 -> p1 = p2 /\ r1 = r2.
Proof.
  revert p2. induction p1 as [|a p1 IH]; intros [|b p2] H1 H2 E;
    simpl in *.
  - injection E as ->. auto.
  - injection E as <- _. rewrite is_not_self in H2. discriminate.
  - injection E as -> _. rewrite is_not_self in H1. discriminate.
  - injection E as -> E.
    apply andb_true_iff in H1 as [_ H1]. apply andb_true_iff in H2 as [_ H2].
    destruct (IH p2 H1 H2 E) as [-> ->]. auto.
Qed.

(** [.*key] under DOTALL finds the key wherever it occurs. *)
Lemma lookahead_scan (l s : list ascii) :
  greedy any_char (re_match_here (Lit l Accept)) s = None
  <-> str_in l s = false.
Proof.
  assert (Hk : forall u,
    re_match_here (Lit l Accept) u = None <-> str_startswith l u = false).
  { intros u. cbn [re_match_here]. unfold str_startswith.
    destruct (strip_prefix l u); split; congruence. }
  set (k := re_match_here (Lit l Accept)) in *.
  induction s as [|a s IH]; cbn [greedy str_in any_char].
  - rewrite orb_false_r. apply Hk.
  - destruct (greedy any_char k s) eqn:Eg.
    + assert (Hs : str_in l s = true).
      { destruct (str_in l s); [reflexivity|].
        destruct IH as [_ IH]. discriminate (IH eq_refl). }
      rewrite Hs, orb_true_r. split; discriminate.
    + destruct IH as [IH _]. rewrite (IH eq_refl), orb_false_r. apply Hk.
Qed.

Lemma not_followed_spec (k : regex) (s : list ascii) :
  re_match_here (not_followed k) s =
    if str_in start_period_key s then None else re_match_here k s.
Proof.
  unfold not_followed. cbn [re_match_here].
  pose proof (lookahead_scan start_period_key s) as H.
  cbn [re_match_here] in H.
  destruct (greedy any_char _ s) eqn:Eg.
  - destruct (str_in start_period_key s); [reflexivity|].
    destruct H as [_ H]. discriminate (H eq_refl).
  - destruct H as [H _]. now rewrite (H eq_refl).
Qed.

Lemma interval_rejects_space (K : regex) (a : ascii) (u : list ascii) :
  is_space a = true ->
  re_match_here (Lit (py "interval: 10s") K) (a :: u) = None.
Proof.
  intros Ha. change (py "interval: 10s") with ("i"%char :: py "nterval: 10s").
  cbn [re_match_here strip_prefix].
  destruct (Ascii.eqb_spec "i" a) as [<-|]; [|reflexivity].
  vm_compute in Ha. discriminate.
Qed.

Lemma interval_line (K : regex) (t : list ascii) :
  re_match_here (Plus is_space (Lit (py "interval: 10s") K)) t =
    after_interval_line t ≫= re_match_here K.
Proof.
  destruct t as [|a t]; cbn [re_match_here after_interval_line];
    [reflexivity|].
  destruct (is_space a); [|reflexivity].
  rewrite greedy_all by (intros; now apply interval_rejects_space).
  cbn [re_match_here]. now destruct (strip_prefix _ _).
Qed.

Lemma test_line (K : regex) (u : list ascii) :
  re_match_here
    (Lit (py "healthz\q]\n") (Plus is_space (Lit (py "interval: 10s") K))) u =
    after_test_line u ≫= re_match_here K.
Proof.
  unfold after_test_line. cbn [re_match_here].
  destruct (strip_prefix _ u); [apply interval_line|reflexivity].
Qed.

Lemma test_line_unique (s x1 u1 x2 u2 : list ascii) :
  s = x1 ++ u1 -> s = x2 ++ u2 ->
  forallb (is_not "]") x1 = true -> forallb (is_not "]") x2 = true ->
  is_Some (after_test_line u1) -> is_Some (after_test_line u2) -> u1 = u2.
Proof.
  unfold after_test_line. intros -> E H1 H2 [r1 Hr1] [r2 Hr2].
  destruct (strip_prefix _ u1) as [t1|] eqn:E1; [|discriminate].
  destruct (strip_prefix _ u2) as [t2|] eqn:E2; [|discriminate].
  apply strip_prefix_Some in E1, E2. subst u1 u2.
  assert (E' : (x1 ++ py "healthz\q") ++ "]"%char :: (LF :: t1) =
               (x2 ++ py "healthz\q") ++ "]"%char :: (LF :: t2))
    by (rewrite <- !app_assoc; exact E).
  apply (first_delimiter_unique "]") in E' as [E' _].
  - apply app_inv_tail in E' as ->. now apply app_inv_head in E.
  - now rewrite forallb_app, H1.
  - now rewrite forallb_app, H2.
Qed.

Lemma anchor_factor (K : regex) (s : list ascii) :
  re_match_here (anchor_pattern K) s =
    (strip_prefix (py "test: [\qCMD\q, \qwget\q") s
       ≫= greedy (is_not "]") after_test_line) ≫= re_match_here K.
Proof.
  unfold anchor_pattern. cbn [re_match_here].
  destruct (strip_prefix _ s) as [t|]; [|reflexivity]. simpl.
  rewrite (greedy_ext _ _ (fun u => after_test_line u ≫= re_match_here K))
    by (intros; apply test_line).
  apply greedy_unique. intros; eapply test_line_unique; eauto.
Qed.

Lemma anchor_end_unfold (s : list ascii) :
  anchor_end s =
    strip_prefix (py "test: [\qCMD\q, \qwget\q") s
      ≫= greedy (is_not "]") after_test_line.
Proof.
  unfold anchor_end. rewrite anchor_factor.
  now destruct (strip_prefix _ s ≫= greedy (is_not "]") after_test_line).
Qed.

(** The anchor part of the pattern matches in one way only: what comes
    after it in the pattern is tried at the end of the block and nowhere
    else. *)
Lemma anchor_then (K : regex) (s : list ascii) :
  re_match_here (anchor_pattern K) s = anchor_end s ≫= re_match_here K.
Proof. now rewrite anchor_factor, anchor_end_unfold. Qed.

(** The shape of an anchor block: the opening of the test line, a run free
    of brackets, the end of the test line, white space, the interval. *)
Lemma anchor_end_shape (s rest : list ascii) :
  anchor_end s = Some rest ->
  exists x a ws,
    s = py "test: [\qCMD\q, \qwget\q" ++ x ++ py "healthz\q]\n"
          ++ a :: ws ++ py "interval: 10s" ++ rest
    /\ forallb (is_not "]") x = true
    /\ is_space a = true /\ forallb is_space ws = true.
Proof.
  rewrite anchor_end_unfold.
  destruct (strip_prefix _ s) as [t|] eqn:E1; [|discriminate].
  apply strip_prefix_Some in E1 as ->. simpl.
  intros H. apply greedy_Some in H as (x & u & -> & Hx & Hu).
  unfold after_test_line in Hu.
  destruct (strip_prefix _ u) as [v|] eqn:E2; [|discriminate].
  apply strip_prefix_Some in E2 as ->. simpl in Hu.
  destruct v as [|a v]; [discriminate|]. cbn [after_interval_line] in Hu.
  destruct (is_space a) eqn:Ha; [|discriminate].
  apply strip_prefix_Some in Hu.
  destruct (run_end_suffix is_space v) as (ws & Hv & Hws).
  exists x, a, ws. rewrite Hu in Hv. rewrite Hv at 1. auto.
Qed.

(** If some split of the run lets the continuation go through, the greedy
    search ends with a success. *)
Lemma greedy_complete {R : Type} (cls : ascii -> bool)
    (f : list ascii -> option R) (x u : list ascii) (res : R) :
  forallb cls x = true -> f u = Some res ->
  is_Some (greedy cls f (x ++ u)).
Proof.
  intros Hx Hu. induction x as [|a x IH]; cbn [app].
  - destruct u as [|a u]; cbn [greedy]; [eauto|].
    destruct (cls a); [|eauto]. destruct (greedy cls f u); eauto.
  - simpl in Hx. apply andb_true_iff in Hx as [Ha Hx]. cbn [greedy].
    rewrite Ha. destruct (IH Hx) as [r ->]. eauto.
Qed.

(** Every text of the shape of an anchor block is one. *)
Lemma anchor_end_intro (x ws rest : list ascii) (a : ascii) :
  forallb (is_not "]") x = true ->
  is_space a = true -> forallb is_space ws = true ->
  anchor_end
    (py "test: [\qCMD\q, \qwget\q" ++ x ++ py "healthz\q]\n"
       ++ a :: ws ++ py "interval: 10s" ++ rest) = Some rest.
Proof.
  intros Hx Ha Hws.
  set (u := py "healthz\q]\n" ++ a :: ws ++ py "interval: 10s" ++ rest).
  rewrite anchor_end_unfold, strip_prefix_app.
  change (greedy (is_not "]") after_test_line (x ++ u) = Some rest).
  assert (Hu : after_test_line u = Some rest).
  { unfold after_test_line, u. rewrite strip_prefix_app.
    change (after_interval_line (a :: ws ++ py "interval: 10s" ++ rest)
            = Some rest).
    cbn [after_interval_line]. rewrite Ha.
    change (py "interval: 10s") with ("i"%char :: py "nterval: 10s").
    cbn [app]. rewrite run_end_stop by auto.
    apply (strip_prefix_app ("i"%char :: py "nterval: 10s")). }
  destruct (greedy_complete (is_not "]") after_test_line x u rest Hx Hu)
    as [r Hr].
  rewrite Hr. f_equal.
  apply greedy_Some in Hr as (x' & u' & E & Hx' & Hu').
  assert (Eu : u' = u).
  { apply (test_line_unique (x ++ u) x' u' x u); eauto. }
  rewrite Eu, Hu in Hu'. now injection Hu'.
Qed.

(** The whole pattern matches at an anchor block that the key does not
    follow, and nowhere else. *)
Lemma pattern_spec (s : list ascii) :
  re_match_here pattern s =
    match anchor_end s with
    | Some rest =>
        if str_in start_period_key rest then None else Some (rest, rest)
    | None => None
    end.
Proof.
  unfold pattern. rewrite anchor_then.
  destruct (anchor_end s) as [rest|]; [|reflexivity].
  change (re_match_here (CloseGroup1 (not_followed Accept)) rest =
          if str_in start_period_key rest then None else Some (rest, rest)).
  pose proof (not_followed_spec Accept rest) as H.
  cbn [re_match_here] in *. rewrite H.
  now destruct (str_in start_period_key rest).
Qed.

Lemma re_sub_match (r : regex) (repl : list ascii -> list ascii)
    (block rest : list ascii) :
  block <> [] ->
  re_match_here r (block ++ rest) = Some (rest, rest) ->
  re_sub r repl (block ++ rest) = repl block ++ re_sub r repl rest.
Proof.
  intros Hb Hm. destruct block as [|a block]; [contradiction|].
  unfold re_sub. cbn [app sub_go]. cbn [app] in Hm. rewrite Hm.
  replace (length (a :: block ++ rest) - length rest)
    with (S (length block)) by (cbn [length]; rewrite length_app; lia).
  replace (S (length block) - 1) with (length block) by lia.
  cbn [take]. now rewrite take_app_length, sub_go_skip.
Qed.

Lemma re_sub_no_match (r : regex) (repl : list ascii -> list ascii)
    (a : ascii) (s : list ascii) :
  re_match_here r (a :: s) = None ->
  re_sub r repl (a :: s) = a :: re_sub r repl s.
Proof. intros Hm. unfold re_sub. cbn [sub_go]. now rewrite Hm. Qed.

Lemma re_sub_copy (r : regex) (repl : list ascii -> list ascii)
    (block rest : list ascii) :
  (forall j, j < length block ->
     re_match_here r (drop j (block ++ rest)) = None) ->
  re_sub r repl (block ++ rest) = block ++ re_sub r repl rest.
Proof.
  induction block as [|a block IH]; intros Hno; [reflexivity|].
  cbn [app]. rewrite re_sub_no_match.
  - f_equal. apply IH. intros j Hj. apply (Hno (S j)). simpl. lia.
  - apply (Hno 0). simpl. lia.
Qed.

Lemma forallb_drop (p : ascii -> bool) (n : nat) (l : list ascii) :
  forallb p l = true -> forallb p (drop n l) = true.
Proof.
  revert n. induction l as [|a l IH]; intros [|n] H; simpl in *; auto.
  apply andb_true_iff in H as [_ H]. now apply IH.
Qed.

Lemma forallb_head (p : ascii -> bool) (a : ascii) (l r : list ascii) :
  forallb p l = true -> l <> [] -> hd_error (l ++ r) = Some a -> p a = true.
Proof.
  destruct l as [|b l]; [contradiction|]. simpl. intros H _ E.
  injection E as <-. now apply andb_true_iff in H as [H _].
Qed.

(** No anchor block starts inside the interval line. *)
Lemma interval_hides_no_test (d : nat) (rest : list ascii) :
  d < 13 ->
  strip_prefix (py "tes") (drop d (py "interval: 10s" ++ rest)) = None.
Proof.
  intros Hd. do 13 (destruct d as [|d]; [reflexivity|]). lia.
Qed.

Lemma anchor_starts_with_tes (s rest : list ascii) :
  anchor_end s = Some rest -> exists t, s = py "tes" ++ t.
Proof.
  intros H. apply anchor_end_shape in H as (x & a & ws & -> & _).
  eexists. reflexivity.
Qed.

(** An anchor block that starts inside another one ends where that one
    ends. *)
Lemma inner_anchor_same_end (s rest rest' : list ascii) (j : nat) :
  anchor_end s = Some rest ->
  j < length s - length rest ->
  anchor_end (drop j s) = Some rest' ->
  rest' = rest.
Proof.
  intros Hs Hj Hd.
  destruct (anchor_starts_with_tes _ _ Hd) as [t Htes].
  apply anchor_end_shape in Hs as (x & a & ws & -> & Hx & Ha & Hws).
  apply anchor_end_shape in Hd as (x' & a' & ws' & Hd & Hx' & Ha' & Hws').
  set (Z1 := py "test: [\qCMD\q, \qwget\q" ++ x ++ py "healthz\q") in *.
  set (Z2 := LF :: a :: ws ++ py "interval: 10s" ++ rest) in *.
  assert (HS : py "test: [\qCMD\q, \qwget\q" ++ x ++ py "healthz\q]\n"
                 ++ a :: ws ++ py "interval: 10s" ++ rest
               = Z1 ++ "]"%char :: Z2).
  { unfold Z1, Z2. rewrite <- !app_assoc. reflexivity. }
  rewrite HS in *.
  assert (HZ1 : forallb (is_not "]") Z1 = true).
  { unfold Z1. now rewrite !forallb_app, Hx. }
  destruct (Nat.le_gt_cases j (length Z1)) as [Hle|Hgt].
  - (* the inner block starts before the bracket *)
    rewrite drop_app_le in Hd by exact Hle.
    assert (Hd' : drop j Z1 ++ "]"%char :: Z2 =
              (py "test: [\qCMD\q, \qwget\q" ++ x' ++ py "healthz\q")
                ++ "]"%char :: (LF :: a' :: ws' ++ py "interval: 10s" ++ rest')).
    { rewrite Hd, <- !app_assoc. reflexivity. }
    apply (first_delimiter_unique "]") in Hd' as [_ HZ2].
    + unfold Z2 in HZ2. injection HZ2 as -> HZ2.
      apply (f_equal (run_end is_space)) in HZ2.
      change (py "interval: 10s") with ("i"%char :: py "nterval: 10s") in HZ2.
      cbn [app] in HZ2. rewrite !run_end_stop in HZ2 by auto.
      injection HZ2 as HZ2. congruence.
    + now apply forallb_drop.
    + now rewrite !forallb_app, Hx'.
  - (* it would start in the white space or in the interval line *)
    exfalso.
    assert (Hdrop : drop j (Z1 ++ "]"%char :: Z2) =
                    drop (j - length Z1 - 1) Z2).
    { rewrite drop_app_ge by lia.
      destruct (j - length Z1) as [|i] eqn:Ei; [lia|].
      cbn [drop]. f_equal. lia. }
    rewrite Hdrop in Htes.
    assert (Hi : j - length Z1 - 1 < length (LF :: a :: ws) + 13).
    { rewrite length_app in Hj. cbn [length] in Hj. unfold Z2 in Hj.
      cbn [length] in *. rewrite !length_app in Hj.
      change (length (py "interval: 10s")) with 13 in Hj. lia. }
    change Z2 with ((LF :: a :: ws) ++ py "interval: 10s" ++ rest) in Htes.
    destruct (Nat.lt_ge_cases (j - length Z1 - 1) (length (LF :: a :: ws)))
      as [Hlt|Hge].
    + rewrite drop_app_le in Htes by lia.
      assert (Hsp : is_space "t" = true).
      { apply (forallb_head is_space "t"
                 (drop (j - length Z1 - 1) (LF :: a :: ws))
                 (py "interval: 10s" ++ rest)).
        - apply forallb_drop. simpl. now rewrite Ha, Hws.
        - intros E. apply (f_equal length) in E.
          rewrite length_drop in E. cbn [length] in *. lia.
        - rewrite Htes. reflexivity. }
      vm_compute in Hsp. discriminate.
    + rewrite drop_app_ge in Htes by lia.
      pose proof (interval_hides_no_test
                    (j - length Z1 - 1 - length (LF :: a :: ws)) rest) as Hno.
      rewrite Htes, strip_prefix_app in Hno.
      assert (Hnone : Some t = None) by (apply Hno; lia). discriminate.
Qed.

(** Inside an anchor block that the key follows, the pattern matches
    nowhere. *)
Lemma no_match_inside (s rest : list ascii) (j : nat) :
  anchor_end s = Some rest ->
  str_in start_period_key rest = true ->
  j < length s - length rest ->
  re_match_here pattern (drop j s) = None.
Proof.
  intros Hs Hkey Hj. rewrite pattern_spec.
  destruct (anchor_end (drop j s)) as [rest'|] eqn:Hd; [|reflexivity].
  rewrite (inner_anchor_same_end s rest rest' j Hs Hj Hd). now rewrite Hkey.
Qed.

End Healthchecks.

Section HealthcheckGuard.
Import FixHealthchecks.

Lemma anchor_block_nonempty (block rest : list ascii) :
  anchor_end (block ++ rest) = Some rest -> block <> [].
Proof.
  intros H ->. apply anchor_end_shape in H as (x & a & ws & H & _).
  apply (f_equal length) in H. cbn [app] in H. rewrite !length_app in H.
  cbn [length] in H. rewrite !length_app in H.
  change (length (py "test: [\qCMD\q, \qwget\q")) with 20 in H. lia.
Qed.

(** Where no anchor block starts, the pass copies the character. *)
Lemma no_anchor_no_insertion (a : ascii) (s : list ascii) :
  anchor_end (a :: s) = None -> transform (a :: s) = a :: transform s.
Proof.
  intros H. apply re_sub_no_match. now rewrite pattern_spec, H.
Qed.

(** Text in which no anchor block starts is copied as it is. *)
Lemma pass_copies_plain_text (pre s : list ascii) :
  (forall j, j < length pre -> anchor_end (drop j (pre ++ s)) = None) ->
  transform (pre ++ s) = pre ++ transform s.
Proof.
  intros Hno. apply re_sub_copy. intros j Hj.
  now rewrite pattern_spec, (Hno j Hj).
Qed.

(** C8. The guard of the healthcheck patch.  An anchor block is the wget
    test line, up to [healthz] and the closing bracket, with its
    [interval: 10s] line.  At an anchor block that the key [start_period]
    does not follow in the rest of the document, the pass keeps the block,
    inserts a line feed, six blanks and [start_period: 30s] after it and
    goes on behind it; at an anchor block that the key follows, the pass
    keeps the block with no insertion and goes on behind it. *)
Theorem start_period_guard (block rest : list ascii) :
  anchor_end (block ++ rest) = Some rest ->
  (exists x a ws,
     block = py "test: [\qCMD\q, \qwget\q" ++ x ++ py "healthz\q]\n"
               ++ a :: ws ++ py "interval: 10s"
     /\ forallb (is_not "]") x = true
     /\ is_space a = true /\ forallb is_space ws = true)
  /\ (str_in (py "start_period") rest = false ->
      transform (block ++ rest) =
        block ++ py "\n      start_period: 30s" ++ transform rest)
  /\ (str_in (py "start_period") rest = true ->
      transform (block ++ rest) = block ++ transform rest).
Proof.
  intros Hanchor. split; [|split; intros Hkey].
  - apply anchor_end_shape in Hanchor as (x & a & ws & E & Hx & Ha & Hws).
    exists x, a, ws. split; [|auto]. apply (app_inv_tail rest).
    rewrite E, <- !app_assoc. cbn [app]. now rewrite <- !app_assoc.
  - change (py "start_period") with start_period_key in Hkey.
    change (py "\n      start_period: 30s") with start_period_line.
    unfold transform.
    rewrite (re_sub_match pattern replacement block rest).
    + unfold replacement. now rewrite <- app_assoc.
    + eapply anchor_block_nonempty, Hanchor.
    + now rewrite pattern_spec, Hanchor, Hkey.
  - change (py "start_period") with start_period_key in Hkey.
    apply re_sub_copy. intros j Hj.
    apply (no_match_inside _ rest); auto.
    rewrite length_app. lia.
Qed.

Lemma start_period_guard_witness :
  transform (wget_block ++ compose_tail_plain) =
    wget_block ++ py "\n      start_period: 30s"
      ++ transform compose_tail_plain
  /\ transform (wget_block ++ compose_tail_with_key) =
       wget_block ++ transform compose_tail_with_key.
Proof.
  split.
  - apply (start_period_guard wget_block compose_tail_plain); reflexivity.
  - apply (start_period_guard wget_block compose_tail_with_key); reflexivity.
Defined.

(** The lookahead reads to the end of the document: a key in a later
    service keeps the pass from patching an earlier healthcheck. *)
Remark key_of_a_later_service_counts :
  transform compose_two_services = compose_two_services.
Proof. reflexivity. Qed.

End HealthcheckGuard.

(** * Rules that only insert *)

Section Insertions.
Implicit Types old new s c : list ascii.

(** The scan of [str.replace] at one position: an occurrence is replaced
    and passed over, any other character is copied. *)
Lemma replace_go_step old new s :
  old <> [] ->
  (exists s', s = old ++ s'
     /\ replace_go old new s 0 = new ++ replace_go old new s' 0)
  \/ (str_startswith old s = false
      /\ match s with
         | [] => replace_go old new s 0 = []
         | a :: s' => replace_go old new s 0 = a :: replace_go old new s' 0
         end).
Proof.
  intros Hold. destruct (str_startswith old s) eqn:E.
  - left. apply str_startswith_true in E as [s' ->]. exists s'.
    split; [reflexivity|]. now apply replace_go_hit.
  - right. split; [reflexivity|]. destruct s as [|a s'].
    + cbn. now rewrite E.
    + now apply replace_go_miss.
Qed.

(** Induction along the scan of [str.replace]. *)
Lemma replace_go_ind old new (Q : list ascii -> list ascii -> Prop) :
  old <> [] ->
  Q [] [] ->
  (forall s' r, Q s' r -> Q (old ++ s') (new ++ r)) ->
  (forall a s' r, str_startswith old (a :: s') = false ->
     Q s' r -> Q (a :: s') (a :: r)) ->
  forall s, Q s (replace_go old new s 0).
Proof.
  intros Hold Hnil Hhit Hmiss s.
  remember (length s) as n eqn:Hn. revert s Hn.
  induction n as [n IH] using lt_wf_ind. intros s Hn.
  destruct (replace_go_step old new s Hold) as [(s' & -> & ->)|[E H]].
  - apply Hhit, (IH (length s')); [|reflexivity].
    subst n. rewrite length_app. destruct old; [congruence|cbn; lia].
  - destruct s as [|a s']; rewrite H; [exact Hnil|].
    apply Hmiss; [exact E|]. apply (IH (length s')); [|reflexivity].
    subst n. cbn. lia.
Qed.

(** [str.replace] with a text that contains the old one deletes nothing. *)
Lemma str_replace_sublist old new s :
  old `sublist_of` new -> s `sublist_of` str_replace old new s.
Proof.
  intros Hsub. destruct old as [|a old].
  - cbn. apply sublist_inserts_l. induction s as [|b s IH]; [constructor|].
    cbn. apply sublist_skip. now apply sublist_inserts_l.
  - cbn [str_replace]. apply replace_go_ind; [discriminate|constructor| |].
    + intros s' r H. now apply sublist_app.
    + intros b s' r _ H. now apply sublist_skip.
Qed.

(** After [str.replace] the new text is there when the old one was. *)
Lemma str_replace_present old new s :
  old <> [] -> str_in old s = true -> str_in new (str_replace old new s) = true.
Proof.
  intros Hold. destruct old as [|a old]; [congruence|]. cbn [str_replace].
  apply (replace_go_ind (a :: old) new
           (fun s r => str_in (a :: old) s = true -> str_in new r = true));
    [discriminate| | |].
  - cbn. discriminate.
  - intros s' r _ _. apply str_in_true. now exists [], r.
  - intros b s' r E IH H. apply str_in_true.
    cbn [str_in] in H. rewrite E in H. cbn [orb] in H.
    apply IH, str_in_true in H as (x & y & ->). now exists (b :: x), y.
Qed.

Lemma str_in_trans sub new s :
  str_in sub new = true -> str_in new s = true -> str_in sub s = true.
Proof.
  intros H1 H2. apply str_in_true in H1 as (a & b & ->).
  now apply str_in_part in H2.
Qed.

End Insertions.

(** X8. The import rules are idempotent: what the import rule of
    scripts/add-logging.py returns has the slog import or no import anchor,
    so that the rule leaves it alone, and what the import rule of
    scripts/update-tests.py returns is left alone by that rule. *)
Theorem import_rules_idempotent (c : list ascii) :
  import_done (AddLogging.add_import c) = true
  /\ AddLogging.add_import (AddLogging.add_import c) = AddLogging.add_import c
  /\ UpdateTests.add_import (UpdateTests.add_import c) =
       UpdateTests.add_import c.
Proof.
  assert (Hdone : import_done (AddLogging.add_import c) = true).
  { unfold import_done, AddLogging.add_import.
    destruct (str_in (py "log/slog") c) eqn:Hs; cbn [negb].
    - now rewrite Hs.
    - destruct (str_in AddLogging.import_anchor c) eqn:Ha.
      + rewrite (str_in_trans (py "log/slog") AddLogging.import_with_slog);
          [reflexivity|reflexivity|].
        now apply str_replace_present.
      + rewrite str_replace_absent by exact Ha. now rewrite Hs, Ha. }
  split; [exact Hdone|]. split.
  - unfold import_done in Hdone. revert Hdone.
    generalize (AddLogging.add_import c) as c'. intros c' Hdone.
    unfold AddLogging.add_import.
    destruct (str_in (py "log/slog") c'); [reflexivity|]. cbn in Hdone.
    apply negb_true_iff in Hdone. now apply str_replace_absent.
  - unfold UpdateTests.add_import at 2 3.
    destruct (str_in (py "log/slog") c) eqn:Hs; cbn [negb andb].
    + unfold UpdateTests.add_import. now rewrite Hs.
    + destruct (str_in (py "\qtesting\q") c) eqn:Ht.
      * unfold UpdateTests.add_import.
        rewrite (str_in_trans (py "log/slog")
                   (py "\qlog/slog\q\n\t\qtesting\q"));
          [reflexivity|reflexivity|].
        now apply str_replace_present.
      * unfold UpdateTests.add_import. now rewrite Hs, Ht.
Qed.

Section OnlyInsert.
Implicit Types c h : list ascii.

Lemma fold_left_sublist (f : list ascii -> list ascii -> list ascii)
    (xs : list (list ascii)) :
  (forall c x, c `sublist_of` f c x) ->
  forall c, c `sublist_of` fold_left f xs c.
Proof.
  intros Hf. induction xs as [|x xs IH]; intros c; [reflexivity|].
  cbn [fold_left]. etrans; [apply (Hf c x)|apply IH].
Qed.

Lemma add_field_sublist c h : c `sublist_of` AddLogging.add_field c h.
Proof.
  unfold AddLogging.add_field.
  destruct (re_search _ c) as [m|]; [|reflexivity].
  repeat (match goal with |- context [if ?b then _ else _] => destruct b end);
    try reflexivity.
  apply str_replace_sublist, sublist_inserts_r. reflexivity.
Qed.

Lemma add_init_sublist c h : c `sublist_of` AddLogging.add_init c h.
Proof.
  unfold AddLogging.add_init.
  destruct (re_search _ c) as [m|]; [|reflexivity].
  repeat (match goal with |- context [if ?b then _ else _] => destruct b end);
    try reflexivity.
  apply str_replace_sublist, sublist_inserts_r. reflexivity.
Qed.

Lemma new_params_sublist (params : list ascii) :
  params `sublist_of` AddLogging.new_params params.
Proof.
  unfold AddLogging.new_params.
  repeat (match goal with |- context [if ?b then _ else _] => destruct b end).
  - apply sublist_inserts_r. reflexivity.
  - apply str_replace_sublist.
    apply (sublist_inserts_l (py ",\n\tlogger *slog.Logger,")). reflexivity.
  - apply sublist_inserts_r. reflexivity.
Qed.

Lemma add_param_sublist c h : c `sublist_of` AddLogging.add_param c h.
Proof.
  unfold AddLogging.add_param.
  destruct (re_search _ c) as [m|]; [|reflexivity].
  destruct (negb _); [|reflexivity].
  etrans; [|apply add_init_sublist].
  apply str_replace_sublist, new_params_sublist.
Qed.

Lemma new_args_sublist (args : list ascii) :
  args `sublist_of` new_args args.
Proof.
  unfold new_args. destruct (str_endswith _ _);
    apply sublist_inserts_r; reflexivity.
Qed.

Lemma add_arg_sublist c h : c `sublist_of` UpdateMains.add_arg c h.
Proof.
  unfold UpdateMains.add_arg.
  destruct (re_search _ c) as [m|]; [|reflexivity].
  destruct (negb _); [|reflexivity].
  apply str_replace_sublist, new_args_sublist.
Qed.

End OnlyInsert.

(** X9. The main-file updater deletes nothing: the content it read is a
    subsequence of the content it computes, which is never shorter. *)
Theorem main_updater_only_inserts (c : list ascii) :
  c `sublist_of` UpdateMains.transform c
  /\ length c <= length (UpdateMains.transform c).
Proof.
  assert (H : c `sublist_of` UpdateMains.transform c)
    by apply (fold_left_sublist _ _ add_arg_sublist).
  split; [exact H|]. now apply sublist_length.
Qed.

(** X10. Every rule of scripts/add-logging.py but the TODO rule, which
    replaces the white space of a TODO block, deletes nothing: the import
    rule, each turn of the field loop and each turn of the parameter loop
    return a content that holds the one they were given as a subsequence,
    and so does what follows the TODO rule in the transform as a whole.
    The import rule of scripts/update-tests.py deletes nothing either. *)
Theorem handler_rules_only_insert (c : list ascii) :
  c `sublist_of` AddLogging.add_import c
  /\ (forall h, c `sublist_of` AddLogging.add_field c h)
  /\ (forall h, c `sublist_of` AddLogging.add_param c h)
  /\ AddLogging.replace_todos (AddLogging.add_import c)
       `sublist_of` AddLogging.transform c
  /\ c `sublist_of` UpdateTests.add_import c.
Proof.
  split.
  { unfold AddLogging.add_import. destruct (negb _); [|reflexivity].
    apply str_replace_sublist.
    change AddLogging.import_with_slog
      with (AddLogging.import_anchor ++ py "\n\t\qlog/slog\q").
    apply sublist_inserts_r. reflexivity. }
  split; [intros h; apply add_field_sublist|].
  split; [intros h; apply add_param_sublist|].
  split.
  - unfold AddLogging.transform.
    etrans; [|apply (fold_left_sublist _ _ add_param_sublist)].
    apply (fold_left_sublist _ _ add_field_sublist).
  - unfold UpdateTests.add_import. destruct (_ && _); [|reflexivity].
    apply str_replace_sublist.
    apply (sublist_inserts_l (py "\qlog/slog\q\n\t")). reflexivity.
Qed.

(** * The branches of the parameter rule *)

Section GroupOfClass.
Variables (L : list ascii) (c : ascii) (K : regex).

(** Group 1 of a pattern [(L[^c]+)K] is the literal and a run without
    [c]. *)
Lemma group_of_class (s : list ascii) (m : re_match) :
  re_search (Lit L (Plus (is_not c) (CloseGroup1 K))) s = Some m ->
  exists x, x <> [] /\ forallb (is_not c) x = true /\ m_group1 m = L ++ x.
Proof.
  intros H. apply search_go_Some in H as (p & g & e & Hm & -> & _ & _).
  cbn [re_match_here] in Hm.
  destruct (strip_prefix L (drop p s)) as [t|] eqn:Hl; [|discriminate].
  apply strip_prefix_Some in Hl.
  destruct t as [|a t]; [discriminate|].
  destruct (is_not c a) eqn:Ha; [|discriminate].
  apply greedy_Some in Hm as (x & u & -> & Hx & Hu).
  cbn [re_match_here] in Hu.
  destruct (re_match_here K u) as [[g' e']|]; [|discriminate].
  injection Hu as <- <-.
  exists (a :: x). split; [discriminate|]. split; [cbn; now rewrite Ha|].
  cbn [mk_match m_group1]. rewrite Hl.
  replace (L ++ a :: x ++ u) with ((L ++ a :: x) ++ u)
    by now rewrite <- app_assoc.
  rewrite length_app.
  replace (length (L ++ a :: x) + length u - length u)
    with (length (L ++ a :: x)) by lia.
  now rewrite take_app_length.
Qed.

Lemma forallb_rev (p : ascii -> bool) (l : list ascii) :
  forallb p l = true -> forallb p (rev l) = true.
Proof.
  rewrite !forallb_forall. intros H a Ha. apply H. now apply in_rev.
Qed.

(** A text that ends with a run without [c] does not end with [c]. *)
Lemma class_run_end (x : list ascii) :
  x <> [] -> forallb (is_not c) x = true -> str_endswith [c] (L ++ x) = false.
Proof.
  intros Hx Hc. unfold str_endswith. rewrite rev_app_distr.
  destruct (rev x) as [|z r] eqn:Hr.
  - apply (f_equal (@rev ascii)) in Hr. rewrite rev_involutive in Hr.
    now subst x.
  - assert (Hz : is_not c z = true).
    { apply forallb_rev in Hc. rewrite Hr in Hc. cbn in Hc.
      now apply andb_true_iff in Hc as [Hz _]. }
    unfold is_not in Hz. apply negb_true_iff in Hz.
    unfold str_startswith. cbn. rewrite Ascii.eqb_sym, Hz. reflexivity.
Qed.

End GroupOfClass.

(** X11. The parameter list that the parameter rule finds never ends with a
    closing parenthesis, so the second branch of the rule, the one that
    rewrites a closing parenthesis, is never taken: the logger parameter is
    appended to the list after a comma and a line feed when there was one,
    and after a new comma and a line feed otherwise. *)
Theorem parameter_rule_dead_branch (content h : list ascii) (m : re_match) :
  re_search (AddLogging.ctor_pattern h) content = Some m ->
  str_endswith (py ")") (m_group1 m) = false
  /\ AddLogging.new_params (m_group1 m) =
       m_group1 m ++ (if str_endswith (py ",\n") (m_group1 m)
                      then py "\tlogger *slog.Logger,\n"
                      else py ",\n\tlogger *slog.Logger").
Proof.
  intros H. apply group_of_class in H as (x & Hx & Hc & ->).
  assert (He : str_endswith (py ")") ((py "func New" ++ h ++ py "(") ++ x)
               = false) by now apply class_run_end.
  split; [exact He|]. unfold AddLogging.new_params. rewrite He.
  now destruct (str_endswith (py ",\n") _).
Qed.

Lemma parameter_rule_dead_branch_witness :
  let params := py "func NewFXHandler(x int" in
  str_endswith (py ")") params = false
  /\ AddLogging.new_params params = params ++ py ",\n\tlogger *slog.Logger".
Proof.
  apply (parameter_rule_dead_branch (scenario_constructor (py "FXHandler"))
           (py "FXHandler")
           {| m_start := 0; m_end := 35;
              m_group1 := py "func NewFXHandler(x int" |}).
  reflexivity.
Defined.

(** * The TODO rule *)

Section Substitution.
Implicit Types (r k : regex) (s g e u block : list ascii).

Lemma lit_inv l k s res :
  re_match_here (Lit l k) s = Some res ->
  exists t, s = l ++ t /\ re_match_here k t = Some res.
Proof.
  cbn [re_match_here]. destruct (strip_prefix l s) as [t|] eqn:E;
    [|discriminate].
  apply strip_prefix_Some in E. eauto.
Qed.

Lemma star_inv cls k s res :
  re_match_here (Star cls k) s = Some res ->
  exists x t, s = x ++ t /\ forallb cls x = true
              /\ re_match_here k t = Some res.
Proof. apply greedy_Some. Qed.

Lemma star_complete cls k x t res :
  forallb cls x = true -> re_match_here k t = Some res ->
  is_Some (re_match_here (Star cls k) (x ++ t)).
Proof. apply greedy_complete. Qed.

(** Two runs of a class that stop at the same character are the same. *)
Lemma run_unique cls (x1 x2 r1 r2 : list ascii) (a : ascii) :
  forallb cls x1 = true -> forallb cls x2 = true -> cls a = false ->
  x1 ++ a :: r1 = x2 ++ a :: r2 -> x1 = x2 /\ r1 = r2.
Proof.
  intros H1 H2 Ha E.
  assert (Hr : a :: r1 = a :: r2).
  { rewrite <- (run_end_stop cls x1 a r1 H1 Ha),
            <- (run_end_stop cls x2 a r2 H2 Ha). now rewrite E. }
  injection Hr as ->. split; [|reflexivity].
  now apply app_inv_tail in E.
Qed.

(** The first substitution of [re.sub], for a pattern whose group 1 is the
    whole match and that matches no empty text: the text before the
    leftmost match is copied, the match is replaced, and the pass goes on
    behind it. *)
Lemma re_sub_first r (repl : list ascii -> list ascii) s m :
  (forall t g e, re_match_here r t = Some (g, e) ->
     g = e /\ length e < length t) ->
  re_search r s = Some m ->
  exists u block e,
    s = u ++ block ++ e
    /\ block <> []
    /\ re_match_here r (block ++ e) = Some (e, e)
    /\ (forall j, j < length u -> re_match_here r (drop j s) = None)
    /\ re_sub r repl s = u ++ repl block ++ re_sub r repl e.
Proof.
  intros Hr H. apply search_go_Some in H as (p & g & e & Hm & _ & Hp & Hno).
  destruct (Hr _ _ _ Hm) as [-> Hlen].
  destruct (re_match_here_suffix _ _ _ _ Hm) as [_ [block Hb]].
  assert (Hs : s = take p s ++ block ++ e) by now rewrite <- Hb, take_drop.
  assert (Hu : length (take p s) = p) by (rewrite length_take; lia).
  assert (Hne : block <> []).
  { intros ->. rewrite Hb in Hlen. cbn in Hlen. lia. }
  exists (take p s), block, e. rewrite <- Hb, Hu.
  repeat split; auto.
  - now rewrite take_drop.
  - rewrite <- (take_drop p s) at 1. rewrite re_sub_copy.
    + f_equal. rewrite Hb. apply re_sub_match; [exact Hne|].
      now rewrite <- Hb.
    + intros j Hj. rewrite take_drop. apply Hno. lia.
Qed.

(** Two texts that do not hold each other's first character do not
    overlap: where [t] occurs in [u ++ R ++ z], it lies within [u] or
    behind [R]. *)
Lemma no_overlap (u R z p t rest : list ascii) (x y : ascii) :
  hd_error t = Some x -> x ∉ R ->
  hd_error R = Some y -> y ∉ t ->
  u ++ R ++ z = p ++ t ++ rest ->
  (exists v, u = p ++ t ++ v)
  \/ (exists v, p = u ++ R ++ v /\ z = v ++ t ++ rest).
Proof.
  intros Ht Hx HR Hy E.
  destruct t as [|x' t]; [discriminate|]. cbn in Ht. injection Ht as ->.
  destruct R as [|y' R]; [discriminate|]. cbn in HR. injection HR as ->.
  apply app_eq_inv in E as [(k & -> & E)|(k & -> & E)].
  - apply app_eq_inv in E as [(k' & Ek & E)|(k' & -> & E)].
    + destruct k' as [|b k'].
      * left. exists []. rewrite app_nil_r in Ek. now rewrite Ek, app_nil_r.
      * exfalso. injection E as -> _. apply Hy. rewrite Ek.
        apply elem_of_app. right. now left.
    + left. now exists k'.
  - apply app_eq_inv in E as [(k' & Ek & E)|(k' & -> & E)].
    + destruct k' as [|b k'].
      * right. exists []. rewrite app_nil_r in Ek. subst k.
        now rewrite app_nil_r.
      * exfalso. injection E as -> _. apply Hx. rewrite Ek.
        apply elem_of_app. right. now left.
    + right. now exists k'.
Qed.

End Substitution.

Section Todos.
Import AddLogging.

Lemma todo_match_inv (s g e : list ascii) :
  re_match_here todo_pattern s = Some (g, e) ->
  exists w1 w2,
    s = todo_block w1 w2 ++ e
    /\ forallb is_space w1 = true /\ forallb is_space w2 = true /\ g = e.
Proof.
  unfold todo_pattern. intros H.
  apply lit_inv in H as (t & -> & H).
  apply star_inv in H as (w1 & t1 & -> & Hw1 & H).
  apply lit_inv in H as (t2 & -> & H).
  apply star_inv in H as (w2 & t3 & -> & Hw2 & H).
  apply lit_inv in H as (e' & -> & H). cbn in H. injection H as <- <-.
  exists w1, w2. unfold todo_block. rewrite <- !app_assoc. cbn [app].
  rewrite <- !app_assoc. auto.
Qed.

Lemma todo_match_intro (w1 w2 e : list ascii) :
  forallb is_space w1 = true -> forallb is_space w2 = true ->
  re_match_here todo_pattern (todo_block w1 w2 ++ e) = Some (e, e).
Proof.
  intros H1 H2.
  assert (Hsome : is_Some (re_match_here todo_pattern (todo_block w1 w2 ++ e))).
  { unfold todo_pattern, todo_block. rewrite <- !app_assoc. cbn [app].
    rewrite <- !app_assoc. rewrite re_match_here_Lit.
    assert (Hin : is_Some (re_match_here
                             (Star is_space (Lit todo_return Accept))
                             (w2 ++ todo_return ++ e))).
    { apply (star_complete _ _ _ _ (e, e)); [exact H2|].
      now rewrite re_match_here_Lit. }
    destruct Hin as [res Hres].
    apply (star_complete _ _ _ _ res); [exact H1|].
    change (LF :: w2 ++ todo_return ++ e)
      with ([LF] ++ w2 ++ todo_return ++ e).
    now rewrite re_match_here_Lit. }
  destruct Hsome as [[g e'] H]. rewrite H.
  apply todo_match_inv in H as (w1' & w2' & E & H1' & H2' & ->).
  unfold todo_block in E. rewrite <- !app_assoc in E.
  apply app_inv_head in E. cbn [app] in E. rewrite <- !app_assoc in E.
  assert (E' : (w1 ++ LF :: w2)
                 ++ "r"%char :: (py "eturn nil, status.Error(codes.Internal, \qinternal error\q)" ++ e)
               = (w1' ++ LF :: w2')
                 ++ "r"%char :: (py "eturn nil, status.Error(codes.Internal, \qinternal error\q)" ++ e')).
  { rewrite <- !app_assoc. exact E. }
  apply (run_unique is_space) in E' as [_ E'];
    [|rewrite forallb_app; cbn; now rewrite ?H1, ?H2, ?H1', ?H2'..
     |reflexivity].
  apply app_inv_head in E'. now subst e'.
Qed.

Lemma not_elem_forallb (c : ascii) (l : list ascii) :
  forallb (is_not c) l = true -> c ∉ l.
Proof.
  induction l as [|a l IH]; cbn; intros H Hin.
  - now apply elem_of_nil in Hin.
  - apply andb_true_iff in H as [Ha Hl].
    apply elem_of_cons in Hin as [->|Hin]; [|now apply IH].
    now rewrite is_not_self in Ha.
Qed.

Lemma forallb_weaken (p q : ascii -> bool) (l : list ascii) :
  (forall a, p a = true -> q a = true) ->
  forallb p l = true -> forallb q l = true.
Proof.
  intros Hpq. rewrite !forallb_forall. auto.
Qed.

Lemma is_space_not_h (a : ascii) : is_space a = true -> is_not "h" a = true.
Proof.
  intros H. unfold is_not.
  destruct (Ascii.eqb_spec a "h") as [->|]; [|reflexivity].
  vm_compute in H. discriminate.
Qed.

(** A TODO block starts with a slash and has no [h]; the replacement starts
    with [h] and has no slash. *)
Lemma todo_block_chars (w1 w2 : list ascii) :
  forallb is_space w1 = true -> forallb is_space w2 = true ->
  hd_error (todo_block w1 w2) = Some "/"%char
  /\ "h"%char ∉ todo_block w1 w2.
Proof.
  intros H1 H2. split; [reflexivity|]. apply not_elem_forallb.
  unfold todo_block. rewrite !forallb_app. cbn [forallb].
  rewrite !forallb_app.
  rewrite (forallb_weaken _ _ w1 is_space_not_h H1).
  rewrite (forallb_weaken _ _ w2 is_space_not_h H2).
  reflexivity.
Qed.

Lemma todo_match_consumes (t g e : list ascii) :
  re_match_here todo_pattern t = Some (g, e) ->
  g = e /\ length e < length t.
Proof.
  intros H. apply todo_match_inv in H as (w1 & w2 & -> & _ & _ & ->).
  split; [reflexivity|]. unfold todo_block. rewrite !length_app.
  assert (length todo_marker = 44) by reflexivity. lia.
Qed.

Lemma no_todo_block_left (c : list ascii) :
  re_search todo_pattern (replace_todos c) = None.
Proof.
  remember (length c) as n eqn:Hn. revert c Hn.
  induction n as [n IH] using lt_wf_ind. intros c Hn.
  destruct (re_search todo_pattern c) as [m|] eqn:Hs;
    [|now rewrite replace_todos_nothing].
  destruct (re_sub_first _ (fun _ => todo_replacement) _ _
              todo_match_consumes Hs)
    as (u & block & e & Hc & Hne & Hm & Hno & Hsub).
  assert (Hlen : length e < n).
  { subst n. rewrite Hc, !length_app. destruct block; [congruence|cbn; lia]. }
  specialize (IH _ Hlen e eq_refl).
  unfold replace_todos in *. rewrite Hsub.
  unfold re_search. apply search_go_None. intros q Hq.
  destruct (re_match_here todo_pattern (drop q _)) as [[g e']|] eqn:Hq';
    [exfalso|reflexivity].
  apply todo_match_inv in Hq' as (w1 & w2 & E & H1 & H2 & _).
  destruct (todo_block_chars w1 w2 H1 H2) as [Hhd Hh].
  destruct (no_overlap u todo_replacement (re_sub todo_pattern
              (fun _ => todo_replacement) e)
              (take q (u ++ todo_replacement
                 ++ re_sub todo_pattern (fun _ => todo_replacement) e))
              (todo_block w1 w2) e' "/" "h") as [[v Hv]|[v [_ Hv]]]; auto.
  - now apply not_elem_forallb.
  - now rewrite <- E, take_drop.
  - set (p := take q _) in Hv.
    assert (Hp : length p < length u).
    { rewrite Hv, !length_app. unfold todo_block. rewrite length_app.
      assert (length todo_marker = 44) by reflexivity. lia. }
    specialize (Hno _ Hp). rewrite Hc, Hv, <- !app_assoc in Hno.
    rewrite drop_app_length, todo_match_intro in Hno by auto.
    discriminate.
  - unfold re_search in IH.
    pose proof (search_go_None_inv _ _ _ IH (length v)) as Hv'.
    rewrite Hv, drop_app_length, todo_match_intro in Hv' by auto.
    rewrite length_app in Hv'. discriminate Hv'. lia.
Qed.

End Todos.

(** X12. The TODO rule rewrites a TODO block, whatever white space stands
    between the comment and the return statement, into the logging call, a
    line feed, two tabs and the return statement, and goes on with the text
    behind the block. *)
Theorem todo_rule_rewrites_block (w1 w2 rest : list ascii) :
  forallb is_space w1 = true -> forallb is_space w2 = true ->
  AddLogging.replace_todos (todo_block w1 w2 ++ rest) =
    py "h.logger.Error(\qhandler error\q, \qerror\q, err)" ++ py "\n\t\t"
      ++ AddLogging.todo_return ++ AddLogging.replace_todos rest.
Proof.
  intros H1 H2. unfold AddLogging.replace_todos.
  rewrite re_sub_match.
  - cbv beta.
    change AddLogging.todo_replacement
      with (py "h.logger.Error(\qhandler error\q, \qerror\q, err)"
              ++ py "\n\t\t" ++ AddLogging.todo_return).
    now rewrite <- !app_assoc.
  - intros E. apply (f_equal length) in E. unfold todo_block in E.
    rewrite length_app in E.
    change (length AddLogging.todo_marker) with 44 in E. cbn in E. lia.
  - now apply todo_match_intro.
Qed.

Lemma todo_rule_rewrites_block_witness :
  AddLogging.replace_todos
    (todo_block (py "  ") (py "        ") ++ py "\n}\n") =
    py "h.logger.Error(\qhandler error\q, \qerror\q, err)\n\t\treturn nil, status.Error(codes.Internal, \qinternal error\q)\n}\n".
Proof.
  apply (todo_rule_rewrites_block (py "  ") (py "        ") (py "\n}\n"));
    reflexivity.
Defined.

(** X13. The TODO rule leaves no TODO block behind, so that it is
    idempotent. *)
Theorem todo_rule_idempotent (c : list ascii) :
  re_search AddLogging.todo_pattern (AddLogging.replace_todos c) = None
  /\ AddLogging.replace_todos (AddLogging.replace_todos c) =
       AddLogging.replace_todos c.
Proof.
  split; [apply no_todo_block_left|].
  apply replace_todos_nothing, no_todo_block_left.
Qed.

(** * The health check pass, twice *)

Section HealthcheckTwice.
Import FixHealthchecks.

Lemma pattern_consumes (t g e : list ascii) :
  re_match_here pattern t = Some (g, e) -> g = e /\ length e < length t.
Proof.
  rewrite pattern_spec. destruct (anchor_end t) as [rest|] eqn:Ha;
    [|discriminate].
  destruct (str_in start_period_key rest); [discriminate|].
  intros H. injection H as <- <-. split; [reflexivity|].
  apply anchor_end_shape in Ha as (x & a & ws & -> & _).
  rewrite !length_app. cbn [length]. rewrite !length_app. lia.
Qed.

(** An anchor block is one whatever follows it. *)
Lemma anchor_any_rest (block e rest : list ascii) :
  anchor_end (block ++ e) = Some e -> anchor_end (block ++ rest) = Some rest.
Proof.
  intros H. apply anchor_end_shape in H as (x & a & ws & E & Hx & Ha & Hws).
  assert (Hb : block = py "test: [\qCMD\q, \qwget\q" ++ x ++ py "healthz\q]\n"
                         ++ a :: ws ++ py "interval: 10s").
  { apply (app_inv_tail e). rewrite E, <- !app_assoc. cbn [app].
    now rewrite <- !app_assoc. }
  rewrite Hb, <- !app_assoc. cbn [app]. rewrite <- !app_assoc.
  now apply anchor_end_intro.
Qed.

Lemma line_holds_key (rest : list ascii) :
  str_in start_period_key (start_period_line ++ rest) = true.
Proof.
  apply str_in_true. exists (py "\n      "), (py ": 30s" ++ rest).
  reflexivity.
Qed.

Lemma key_behind (k rest : list ascii) :
  str_in start_period_key rest = true ->
  str_in start_period_key (k ++ rest) = true.
Proof.
  intros H. apply str_in_true in H as (a & b & ->). apply str_in_true.
  exists (k ++ a), b. now rewrite <- app_assoc.
Qed.

(** No anchor block starts within the inserted line. *)
Lemma line_hides_no_test (j : nat) (rest : list ascii) :
  j < 24 ->
  strip_prefix (py "tes") (drop j (start_period_line ++ rest)) = None.
Proof.
  intros Hj. do 24 (destruct j as [|j]; [reflexivity|]). lia.
Qed.

(** Behind an anchor block that got its line, every anchor block that
    starts before the line is followed by the key. *)
Lemma anchor_before_line (d block e rest rest' : list ascii) :
  anchor_end (block ++ e) = Some e ->
  anchor_end (d ++ block ++ start_period_line ++ rest) = Some rest' ->
  str_in start_period_key rest' = true.
Proof.
  intros Hb Hd.
  pose proof (anchor_any_rest _ _ (start_period_line ++ rest) Hb) as Hin.
  assert (Hsuf : rest' `suffix_of` d ++ block ++ start_period_line ++ rest).
  { unfold anchor_end in Hd.
    destruct (re_match_here _ _) as [[g e']|] eqn:Hm; [|discriminate].
    injection Hd as ->. now apply re_match_here_suffix in Hm. }
  destruct Hsuf as [B HB].
  symmetry in HB. apply app_eq_inv in HB as [(k & -> & HB)|(k & -> & HB)].
  - destruct k as [|b k].
    + cbn [app] in HB. rewrite <- HB.
      apply (key_behind block), line_holds_key.
    + assert (E : start_period_line ++ rest = rest').
      { apply (inner_anchor_same_end _ _ _ (length d) Hd).
        - rewrite HB, !length_app. cbn [length]. lia.
        - now rewrite drop_app_length. }
      rewrite <- E. apply line_holds_key.
  - rewrite HB. apply key_behind, (key_behind block), line_holds_key.
Qed.

Lemma no_match_after_pass (c : list ascii) :
  re_search pattern (transform c) = None.
Proof.
  remember (length c) as n eqn:Hn. revert c Hn.
  induction n as [n IH] using lt_wf_ind. intros c Hn.
  destruct (re_search pattern c) as [m|] eqn:Hs;
    [|unfold transform; now rewrite re_sub_nothing].
  destruct (re_sub_first _ replacement _ _ pattern_consumes Hs)
    as (u & block & e & Hc & Hne & Hm & _ & Hsub).
  assert (Hlen : length e < n).
  { subst n. rewrite Hc, !length_app. destruct block; [congruence|cbn; lia]. }
  specialize (IH _ Hlen e eq_refl).
  rewrite pattern_spec in Hm.
  destruct (anchor_end (block ++ e)) as [rest|] eqn:Hb; [|discriminate].
  destruct (str_in start_period_key rest); [discriminate|].
  injection Hm as ->.
  unfold transform in *. rewrite Hsub.
  change (replacement block) with (block ++ start_period_line).
  rewrite <- app_assoc.
  unfold re_search. apply search_go_None. intros q _.
  destruct (decide (q < length u)) as [Hq|Hq].
  - rewrite drop_app_le by lia. rewrite pattern_spec.
    match goal with
    | |- context [anchor_end ?x] =>
        destruct (anchor_end x) as [rest'|] eqn:Hd; [|reflexivity]
    end.
    now rewrite (anchor_before_line _ _ _ _ _ Hb Hd).
  - rewrite drop_app_ge by lia.
    destruct (decide (q - length u < length block)) as [Hq1|Hq1].
    + apply (no_match_inside _ (start_period_line
                                  ++ re_sub pattern replacement e)).
      * now apply (anchor_any_rest _ e).
      * apply line_holds_key.
      * rewrite !length_app. lia.
    + rewrite drop_app_ge by lia.
      destruct (decide (q - length u - length block < 24)) as [Hq2|Hq2].
      * rewrite pattern_spec.
        match goal with
        | |- context [anchor_end ?x] =>
            destruct (anchor_end x) as [rest'|] eqn:Hd; [|reflexivity]
        end.
        apply anchor_starts_with_tes in Hd as [t Ht].
        pose proof (line_hides_no_test _ (re_sub pattern replacement e) Hq2)
          as Hno.
        rewrite Ht, strip_prefix_app in Hno. discriminate.
      * rewrite drop_app_ge by (change (length start_period_line) with 24; lia).
        destruct (decide (q - length u - length block
                            - length start_period_line
                          <= length (re_sub pattern replacement e)))
          as [Hle|Hgt].
        -- now apply (search_go_None_inv _ _ _ IH).
        -- rewrite drop_ge by lia. reflexivity.
Qed.

(** The pass, one substitution after the other. *)
Lemma pass_only_inserts (c : list ascii) : c `sublist_of` transform c.
Proof.
  remember (length c) as n eqn:Hn. revert c Hn.
  induction n as [n IH] using lt_wf_ind. intros c Hn.
  destruct (re_search pattern c) as [m|] eqn:Hs;
    [|unfold transform; now rewrite re_sub_nothing].
  destruct (re_sub_first _ replacement _ _ pattern_consumes Hs)
    as (u & block & e & Hc & Hne & Hm & _ & Hsub).
  assert (Hlen : length e < n).
  { subst n. rewrite Hc, !length_app. destruct block; [congruence|cbn; lia]. }
  specialize (IH _ Hlen e eq_refl).
  unfold transform in *. rewrite Hsub, Hc at 1.
  apply sublist_app; [reflexivity|].
  apply sublist_app; [|exact IH].
  apply sublist_inserts_r. reflexivity.
Qed.

End HealthcheckTwice.

(** X14. After the health check pass no anchor block is left without a
    [start_period] somewhere behind it, so that a second pass changes
    nothing. *)
Theorem healthcheck_pass_idempotent (c : list ascii) :
  re_search FixHealthchecks.pattern (FixHealthchecks.transform c) = None
  /\ FixHealthchecks.transform (FixHealthchecks.transform c) =
       FixHealthchecks.transform c.
Proof.
  split; [apply no_match_after_pass|].
  apply re_sub_nothing, no_match_after_pass.
Qed.

(** X15. The health check pass deletes nothing: the content it read is a
    subsequence of the content it writes, which is never shorter. *)
Theorem healthcheck_pass_only_inserts (c : list ascii) :
  c `sublist_of` FixHealthchecks.transform c
  /\ length c <= length (FixHealthchecks.transform c).
Proof.
  split; [apply pass_only_inserts|].
  apply sublist_length, pass_only_inserts.
Qed.

(** * The test-file updater as one substitution *)

Section Splice.
Variables (r : regex) (guard : list ascii -> bool)
          (new : list ascii -> list ascii) (close : list ascii).

(** A match of [r] is group 1, then [close]. *)
Hypothesis r_shape : forall s g e,
  re_match_here r s = Some (g, e) ->
  exists span, span <> [] /\ s = span ++ close ++ e /\ g = close ++ e.

(** One substitution of [re.sub] behind a match. *)
Lemma sub_go_match (repl : list ascii -> list ascii) (span e : list ascii) :
  span <> [] ->
  re_match_here r (span ++ close ++ e) = Some (close ++ e, e) ->
  sub_go r repl (span ++ close ++ e) 0 = repl span ++ sub_go r repl e 0.
Proof.
  intros Hne Hm. destruct span as [|a span]; [congruence|].
  cbn [app sub_go]. cbn [app] in Hm. rewrite Hm.
  replace (length (a :: span ++ close ++ e) - length (close ++ e))
    with (S (length span)) by (cbn [length]; rewrite !length_app; lia).
  replace (length (a :: span ++ close ++ e) - length e - 1)
    with (length (span ++ close))
    by (cbn [length]; rewrite !length_app; lia).
  cbn [take]. rewrite take_app_length. f_equal.
  rewrite app_assoc. apply sub_go_skip.
Qed.

(** The loop over the reversed matches, with the splice of the test-file
    updater as its body, computes what one pass of [re.sub] computes. *)
Lemma splice_all (s : list ascii) : forall skip pre,
  fold_left
    (fun content m =>
       if guard (m_group1 m)
       then take (m_start m) content ++ new (m_group1 m)
              ++ drop (m_end m) content
       else content)
    (rev (finditer_go r s (length pre) skip)) (pre ++ s) =
  pre ++ take skip s
    ++ sub_go r (fun g => if guard g then new g else g ++ close) s skip.
Proof.
  induction s as [|c s IH]; intros skip pre.
  - destruct skip; cbn; now rewrite ?app_nil_r.
  - assert (Hpre : forall t, pre ++ c :: t = (pre ++ [c]) ++ t)
      by (intros t; now rewrite <- app_assoc).
    assert (Hlen : S (length pre) = length (pre ++ [c]))
      by (rewrite length_app; cbn; lia).
    destruct skip as [|n].
    + cbn [finditer_go sub_go take].
      destruct (re_match_here r (c :: s)) as [[g e]|] eqn:Hm.
      * destruct (r_shape _ _ _ Hm) as (span & Hne & Hs & ->).
        destruct span as [|a span]; [congruence|].
        cbn [app] in Hs. injection Hs as -> ->.
        set (k := length (span ++ close)).
        replace (length (a :: span ++ close ++ e) - length e - 1) with k
          by (subst k; cbn [length]; rewrite !length_app; lia).
        cbn [rev]. rewrite fold_left_app. cbn [fold_left].
        rewrite Hpre, Hlen, IH. cbn [mk_match m_start m_end m_group1].
        replace (length (a :: span ++ close ++ e) - length (close ++ e))
          with (S (length span)) by (cbn [length]; rewrite !length_app; lia).
        replace (length (a :: span ++ close ++ e) - length e) with (S k)
          by (subst k; cbn [length]; rewrite !length_app; lia).
        cbn [take]. rewrite take_app_length.
        rewrite (app_assoc span close e). subst k.
        rewrite take_app_length, sub_go_skip, <- Hpre.
        destruct (guard (a :: span)).
        -- rewrite take_app_length, drop_app_add. cbn [drop app].
           now rewrite drop_app_length.
        -- cbn [app]. now rewrite <- !app_assoc.
      * rewrite Hpre, Hlen, IH. cbn [take app]. now rewrite <- app_assoc.
    + cbn [finditer_go sub_go take]. rewrite Hpre, Hlen, IH.
      now rewrite <- !app_assoc.
Qed.

End Splice.

Section TestCalls.

Lemma call_shape (h s g e : list ascii) :
  re_match_here (call_pattern h) s = Some (g, e) ->
  exists span, span <> [] /\ s = span ++ py ")" ++ e /\ g = py ")" ++ e.
Proof.
  unfold call_pattern. intros H. apply lit_inv in H as (t & -> & H).
  apply call_tail_inv in H as (x & Hx & _ & -> & ->).
  exists ((h ++ py "(") ++ x). split.
  - destruct x; [congruence|]. now destruct (h ++ py "(").
  - now rewrite <- !app_assoc.
Qed.

Lemma add_args_re_sub (content h : list ascii) :
  UpdateTests.add_args content h =
    re_sub (call_pattern h)
      (fun args =>
         if negb (str_in (py "logger") (str_lower args))
            && negb (str_in (py "log") (str_lower args))
         then new_args args else args ++ py ")")
      content.
Proof.
  exact (splice_all (call_pattern h) _ new_args (py ")") (call_shape h)
           content 0 []).
Qed.

Lemma add_args_absent (c h : list ascii) :
  str_in h c = false -> UpdateTests.add_args c h = c.
Proof.
  intros H. rewrite add_args_re_sub. unfold call_pattern.
  apply re_sub_absent, (str_in_part_absent []), H.
Qed.

Lemma tests_transform_untouched (c : list ascii) :
  mentions_none constructors c = true ->
  fold_left UpdateTests.add_args constructors c = c.
Proof.
  intros H. apply fold_left_fixed. intros h Hh.
  apply add_args_absent. now apply (mentions_none_In constructors).
Qed.

End TestCalls.

(** X16. For each constructor name the test-file updater, which splices
    the new argument text over the matches from the last one to the first,
    computes what a single [re.sub] over the call pattern computes whose
    replacement is the new argument text for a call without [log] in its
    arguments, and the match itself for any other call. *)
Theorem test_updater_is_one_substitution (content h : list ascii) :
  UpdateTests.add_args content h =
    re_sub (call_pattern h)
      (fun args =>
         if negb (str_in (py "logger") (str_lower args))
            && negb (str_in (py "log") (str_lower args))
         then new_args args else args ++ py ")")
      content.
Proof. apply add_args_re_sub. Qed.

(** X17. In the test-file updater every call that is patched loses its
    closing parenthesis: the call text up to the parenthesis is replaced by
    the new argument text, the parenthesis is left out, and the updater
    goes on with the text behind it. *)
Theorem test_call_loses_parenthesis (h x rest : list ascii) :
  x <> [] -> forallb (is_not ")") x = true ->
  str_in (py "log") (str_lower (h ++ py "(" ++ x)) = false ->
  UpdateTests.add_args (h ++ py "(" ++ x ++ py ")" ++ rest) h =
    new_args (h ++ py "(" ++ x) ++ UpdateTests.add_args rest h.
Proof.
  intros Hx Hc Hlog. rewrite !add_args_re_sub. unfold re_sub.
  assert (Hlogger : str_in (py "logger") (str_lower (h ++ py "(" ++ x))
                    = false)
    by apply (str_in_part_absent [] (py "log") (py "ger")), Hlog.
  rewrite (app_assoc h), (app_assoc (h ++ py "(")).
  rewrite (sub_go_match (call_pattern h) (py ")")).
  - rewrite <- !app_assoc, Hlogger, Hlog. reflexivity.
  - destruct x; [congruence|]. now destruct (h ++ py "(").
  - unfold call_pattern. rewrite <- app_assoc, re_match_here_Lit.
    now apply call_tail_match.
Qed.

Lemma test_call_loses_parenthesis_witness :
  UpdateTests.add_args (py "NewFXHandler(repo, cache)\n\tt.Run()")
    (py "NewFXHandler") =
    py "NewFXHandler(repo, cache,\n\t\tlogger,"
      ++ UpdateTests.add_args (py "\n\tt.Run()") (py "NewFXHandler").
Proof.
  apply (test_call_loses_parenthesis (py "NewFXHandler") (py "repo, cache")
           (py "\n\tt.Run()")); [discriminate|reflexivity|reflexivity].
Defined.

Section KeptAbsent.
Variables (old new t : list ascii) (x y : ascii).
Hypothesis old_nonempty : old <> [].
Hypothesis t_head : hd_error t = Some x.
Hypothesis new_head : hd_error new = Some y.
Hypothesis x_new : x ∉ new.

(** A text without the first character of [new] that starts the result
    of [str.replace] starts the text that was read. *)
Lemma replace_prefix_kept (s : list ascii) : forall p,
  y ∉ p -> str_startswith p (replace_go old new s 0) = true ->
  str_startswith p s = true.
Proof.
  apply (replace_go_ind old new
           (fun s r => forall p, y ∉ p -> str_startswith p r = true
                                 -> str_startswith p s = true));
    [exact old_nonempty|auto| |].
  - intros s' r _ p Hy Hp. destruct p as [|a p]; [reflexivity|].
    destruct new as [|b new']; [discriminate|]. cbn in new_head.
    injection new_head as ->.
    unfold str_startswith in Hp. cbn in Hp.
    destruct (Ascii.eqb_spec a y) as [->|]; [|discriminate].
    exfalso. apply Hy. now left.
  - intros a s' r _ IH p Hy Hp. destruct p as [|b p]; [reflexivity|].
    unfold str_startswith in *. cbn in *.
    destruct (Ascii.eqb b a); [|discriminate].
    apply IH; [|exact Hp]. intros H. apply Hy. now right.
Qed.

(** [str.replace] brings in no occurrence of a text that has no character
    in common with the ends of [new]. *)
Lemma replace_keeps_absent (s : list ascii) :
  y ∉ t -> str_in t s = false -> str_in t (replace_go old new s 0) = false.
Proof.
  intros Hy.
  enough (H : replace_go old new s 0 = replace_go old new s 0
              /\ (str_in t s = false
                  -> str_in t (replace_go old new s 0) = false))
    by apply H.
  apply (replace_go_ind old new
           (fun s r => r = replace_go old new s 0
                       /\ (str_in t s = false -> str_in t r = false)));
    [exact old_nonempty
    |split; [destruct old; [congruence|reflexivity]|auto]| |].
  - intros s' r [Hr IH]. split; [now rewrite replace_go_hit, Hr|].
    intros Hs.
    assert (Hs' : str_in t s' = false).
    { destruct (str_in t s') eqn:E; [|reflexivity].
      apply str_in_true in E as (a & b & ->).
      rewrite <- Hs. symmetry. apply str_in_true. exists (old ++ a), b.
      now rewrite <- app_assoc. }
    specialize (IH Hs').
    destruct (str_in t (new ++ r)) eqn:E; [|reflexivity].
    apply str_in_true in E as (a & b & E).
    destruct (no_overlap [] new r a t b x y) as [[v Hv]|[v [_ Hv]]]; auto.
    + apply (f_equal length) in Hv. rewrite !length_app in Hv.
      destruct t; [discriminate|]. cbn in Hv. lia.
    + rewrite <- IH. symmetry. apply str_in_true. eauto.
  - intros a s' r Hmiss [Hr IH].
    split; [now rewrite replace_go_miss, Hr|]. intros Hs.
    pose proof (str_in_false_tail _ _ _ Hs) as Hs'.
    pose proof (str_in_false_head _ _ Hs) as Hh.
    specialize (IH Hs'). cbn [str_in]. rewrite IH, orb_false_r.
    destruct (str_startswith t (a :: r)) eqn:E; [|reflexivity].
    rewrite <- Hh. symmetry.
    apply replace_prefix_kept; [exact Hy|].
    now rewrite (replace_go_miss old new a s' Hmiss), <- Hr.
Qed.

End KeptAbsent.

Lemma constructor_chars (h : list ascii) :
  In h constructors ->
  hd_error h = Some "N"%char /\ DQ ∉ h.
Proof.
  intros H. cbn in H.
  repeat (destruct H as [<-|H];
          [split; [reflexivity|now apply not_elem_forallb]|]).
  contradiction.
Qed.

Lemma test_import_names_no_constructor (c : list ascii) :
  mentions_none constructors c = true ->
  mentions_none constructors (UpdateTests.add_import c) = true.
Proof.
  intros H. unfold UpdateTests.add_import. destruct (_ && _); [|exact H].
  unfold mentions_none. apply forallb_forall. intros h Hh.
  destruct (constructor_chars h Hh) as [Hhd Hdq].
  change (str_replace (py "\qtesting\q") (py "\qlog/slog\q\n\t\qtesting\q") c)
    with (replace_go (py "\qtesting\q") (py "\qlog/slog\q\n\t\qtesting\q")
            c 0).
  apply negb_true_iff.
  apply (replace_keeps_absent _ _ h "N" DQ).
  - discriminate.
  - exact Hhd.
  - reflexivity.
  - now apply not_elem_forallb.
  - exact Hdq.
  - now apply (mentions_none_In constructors).
Qed.

(** X18. A file that names no constructor of the catalog is left alone by
    the main-file updater, which reports it as unchanged; the test-file
    updater applies its import rule to it and nothing else, so that it
    leaves the file alone exactly when the import rule does. *)
Theorem no_constructor_no_argument (w : world) (f : string) (n : nat)
    (c : list ascii) :
  files w !! f = Some c ->
  mentions_none constructors c = true ->
  UpdateMains.transform c = c
  /\ update_main_file f w = (Returned false, w)
  /\ UpdateTests.transform c = UpdateTests.add_import c
  /\ (str_in (py "log/slog") c = true \/ str_in (py "\qtesting\q") c = false ->
      update_test_file f n w = (Returned n, w)).
Proof.
  intros Hf Hnone.
  pose proof (mains_transform_untouched c Hnone) as Hm.
  split; [exact Hm|]. split.
  { rewrite (update_main_file_run w f c Hf), Hm.
    rewrite bool_decide_eq_false_2; [reflexivity|]. now intros H. }
  assert (Ht : UpdateTests.transform c = UpdateTests.add_import c).
  { unfold UpdateTests.transform.
    now apply tests_transform_untouched, test_import_names_no_constructor. }
  split; [exact Ht|]. intros Himp.
  assert (Hc : UpdateTests.transform c = c).
  { rewrite Ht. unfold UpdateTests.add_import.
    destruct Himp as [-> | ->]; [reflexivity|].
    now rewrite andb_false_r. }
  rewrite (update_test_file_run w f n c Hf), Hc.
  rewrite bool_decide_eq_false_2; [reflexivity|]. now intros H.
Qed.

Lemma no_constructor_no_argument_witness :
  UpdateMains.transform plain_go = plain_go
  /\ update_main_file "a.go" (two_files plain_go handler_go) =
       (Returned false, two_files plain_go handler_go)
  /\ UpdateTests.transform plain_go = UpdateTests.add_import plain_go
  /\ (str_in (py "log/slog") plain_go = true
      \/ str_in (py "\qtesting\q") plain_go = false ->
      update_test_file "a.go" 0 (two_files plain_go handler_go) =
        (Returned 0, two_files plain_go handler_go)).
Proof.
  apply (no_constructor_no_argument (two_files plain_go handler_go) "a.go" 0
           plain_go); reflexivity.
Defined.

(** * A rule and its own result *)

Lemma search_go_first (r : regex) (p : nat) : forall (s : list ascii) i g e,
  (forall q, q < p -> re_match_here r (drop q s) = None) ->
  p <= length s ->
  re_match_here r (drop p s) = Some (g, e) ->
  search_go r s i = Some (mk_match (i + p) (drop p s) g e).
Proof.
  induction p as [|p IH]; intros s i g e Hno Hp Hm.
  - rewrite drop_0 in *. rewrite Nat.add_0_r.
    destruct s; cbn [search_go]; now rewrite Hm.
  - destruct s as [|a s]; [cbn in Hp; lia|].
    assert (H0 : re_match_here r (a :: s) = None) by (apply (Hno 0); lia).
    cbn [search_go]. rewrite H0.
    rewrite <- Nat.add_succ_comm. apply IH.
    + intros q Hq. apply (Hno (S q)). lia.
    + cbn in Hp. lia.
    + exact Hm.
Qed.

Lemma forallb_is_not_false (c : ascii) (l : list ascii) :
  forallb (is_not c) l = false -> In c l.
Proof.
  induction l as [|a l IH]; cbn; [discriminate|].
  destruct (is_not c a) eqn:Ha; cbn.
  - intros H. right. now apply IH.
  - intros _. left. now apply is_not_false.
Qed.

Section SpanGrow.
Variables (L : list ascii) (c : ascii) (P : regex).

Hypothesis P_inv : forall t g e,
  re_match_here P t = Some (g, e) ->
  exists x, x <> [] /\ forallb (is_not c) x = true
            /\ t = x ++ c :: e /\ g = c :: e.
Hypothesis P_match : forall x e,
  x <> [] -> forallb (is_not c) x = true ->
  re_match_here P (x ++ c :: e) = Some (c :: e, e).
Hypothesis L_free : forallb (is_not c) L = true.

(** Text put behind the run of the leftmost match, and of its copies,
    brings no match further left. *)
Lemma grow_no_earlier_match (a x F e e' : list ascii) (q : nat) :
  forallb (is_not c) x = true -> forallb (is_not c) F = true -> x <> [] ->
  q < length a ->
  re_match_here (Lit L P) (drop q (a ++ (L ++ x) ++ c :: e)) = None ->
  re_match_here (Lit L P) (drop q (a ++ (L ++ x ++ F) ++ c :: e')) = None.
Proof.
  intros Hx HF Hne Hq Hno.
  destruct (re_match_here (Lit L P) (drop q (a ++ (L ++ x ++ F) ++ c :: e')))
    as [[g e2]|] eqn:Hm; [exfalso|reflexivity].
  rewrite drop_app_le in Hm, Hno by lia.
  assert (HD : drop q a <> []).
  { intros E. apply (f_equal length) in E. rewrite length_drop in E.
    cbn in E. lia. }
  revert Hm Hno HD. generalize (drop q a) as D. intros D Hm Hno HD.
  apply lit_inv in Hm as (t & Ht & Hm).
  apply P_inv in Hm as (y & Hy & Hyc & -> & _).
  assert (Hgoal : exists y0 rest, y0 <> [] /\ forallb (is_not c) y0 = true
                    /\ D ++ (L ++ x) ++ c :: e = L ++ y0 ++ c :: rest).
  { destruct (forallb (is_not c) D) eqn:HDc.
    - assert (E : D ++ L ++ x ++ F = L ++ y).
      { apply (first_delimiter_unique c _ e' _ e2).
        - now rewrite !forallb_app, HDc, L_free, Hx, HF.
        - now rewrite forallb_app, L_free, Hyc.
        - rewrite <- !app_assoc. rewrite <- !app_assoc in Ht. exact Ht. }
      rewrite (app_assoc D), (app_assoc (D ++ L)) in E.
      apply app_eq_inv in E as [(k & Ek & _)|(k & Ek & _)].
      + exists k, e. split; [|split].
        * intros ->. apply (f_equal length) in Ek.
          rewrite !length_app in Ek. cbn in Ek.
          destruct D; [congruence|]. cbn in Ek. lia.
        * assert (Hall : forallb (is_not c) ((D ++ L) ++ x) = true)
            by now rewrite !forallb_app, HDc, L_free, Hx.
          rewrite Ek, forallb_app in Hall.
          now apply andb_true_iff in Hall as [_ Hk].
        * rewrite <- !app_assoc in Ek. rewrite <- !app_assoc.
          rewrite (app_assoc D), (app_assoc (D ++ L)).
          rewrite <- (app_assoc D L x), Ek. now rewrite <- !app_assoc.
      + exfalso. apply (f_equal length) in Ek. rewrite !length_app in Ek.
        destruct D; [congruence|]. cbn in Ek. lia.
    - apply forallb_is_not_false in HDc.
      destruct (first_occurrence_split c D HDc) as (d1 & d2 & -> & Hd1).
      assert (E : d1 = L ++ y).
      { apply (first_delimiter_unique c _ (d2 ++ (L ++ x ++ F) ++ c :: e')
                 _ e2); auto.
        - now rewrite forallb_app, L_free, Hyc.
        - rewrite <- !app_assoc in Ht. rewrite <- !app_assoc. exact Ht. }
      exists y, (d2 ++ (L ++ x) ++ c :: e). split; [exact Hy|].
      split; [exact Hyc|]. rewrite E. now rewrite <- !app_assoc. }
  destruct Hgoal as (y0 & rest & Hy0 & Hy0c & E).
  rewrite E, re_match_here_Lit, P_match in Hno by auto. discriminate.
Qed.

(** After the rule put [F] behind the span of the leftmost match, the
    leftmost match is at the same place, and its span is the new one. *)
Lemma span_grow (content F : list ascii) (m : re_match) :
  re_search (Lit L P) content = Some m ->
  forallb (is_not c) F = true ->
  exists m',
    re_search (Lit L P)
      (str_replace (m_group1 m) (m_group1 m ++ F) content) = Some m'
    /\ m_group1 m' = m_group1 m ++ F
    /\ m_start m' = m_start m.
Proof.
  intros H HF.
  destruct (span_replace L c P P_inv P_match content (m_group1 m ++ F) m H)
    as [_ Hrep].
  destruct (search_span L c P P_inv content m H)
    as (a & x & e & Hc & Hs & _ & Hg & Hx & Hxc & Hno).
  rewrite Hrep, Hs, Hg.
  assert (Hb : take (length a) content = a)
    by (rewrite Hc; apply take_app_length).
  assert (Ha : drop (length a + length (L ++ x)) content = c :: e).
  { rewrite Hc, app_assoc, <- length_app. apply drop_app_length. }
  rewrite Hb, Ha.
  assert (Hmiss : str_replace (L ++ x) ((L ++ x) ++ F) (c :: e) =
                  c :: str_replace (L ++ x) ((L ++ x) ++ F) e).
  { assert (Hall : forallb (is_not c) (L ++ x) = true)
      by now rewrite forallb_app, L_free, Hxc.
    destruct (L ++ x) as [|z sp] eqn:E.
    - destruct L; [|discriminate]. now destruct x.
    - cbn [str_replace]. apply replace_go_miss.
      cbn in Hall. apply andb_true_iff in Hall as [Hz _].
      unfold is_not in Hz. apply negb_true_iff in Hz.
      unfold str_startswith. cbn. now rewrite Hz. }
  rewrite Hmiss.
  set (e' := str_replace (L ++ x) ((L ++ x) ++ F) e).
  rewrite <- (app_assoc L x F).
  assert (Hm : re_match_here (Lit L P)
                 (drop (length a) (a ++ (L ++ x ++ F) ++ c :: e'))
               = Some (c :: e', e')).
  { rewrite drop_app_length, <- !app_assoc, re_match_here_Lit.
    rewrite (app_assoc x F). apply P_match.
    - now destruct x.
    - now rewrite forallb_app, Hxc, HF. }
  eexists. split; [|split].
  - unfold re_search. apply (search_go_first _ (length a)); [| |exact Hm].
    + intros q Hq. apply (grow_no_earlier_match a x F e e' q); auto.
      rewrite <- Hc. now apply Hno.
    + rewrite length_app. lia.
  - cbn [mk_match m_group1]. rewrite drop_app_length.
    replace (length ((L ++ x ++ F) ++ c :: e') - length (c :: e'))
      with (length (L ++ x ++ F)) by (rewrite (length_app (L ++ _)); lia).
    apply take_app_length.
  - reflexivity.
Qed.

End SpanGrow.

Section OwnResult.

Lemma str_in_behind (sub a b : list ascii) :
  str_in sub b = true -> str_in sub (a ++ b) = true.
Proof.
  intros H. apply str_in_true in H as (u & v & ->). apply str_in_true.
  exists (a ++ u), v. now rewrite <- app_assoc.
Qed.

Lemma struct_literal_free (h : list ascii) :
  In h AddLogging.handlers ->
  forallb (is_not "}") (py "type " ++ h ++ py " struct {") = true
  /\ forallb (is_not "}") (py "return &" ++ h ++ py "{") = true.
Proof.
  intros H. cbn in H.
  repeat (destruct H as [<-|H]; [split; reflexivity|]). contradiction.
Qed.

Lemma call_literal_free (h : list ascii) :
  In h constructors -> forallb (is_not ")") (h ++ py "(") = true.
Proof.
  intros H. cbn in H.
  repeat (destruct H as [<-|H]; [reflexivity|]). contradiction.
Qed.

Lemma add_field_twice (c h : list ascii) :
  In h AddLogging.handlers ->
  AddLogging.add_field (AddLogging.add_field c h) h = AddLogging.add_field c h.
Proof.
  intros Hh. destruct (struct_literal_free h Hh) as [HL _].
  destruct (re_search (AddLogging.struct_pattern h) c) as [m|] eqn:Hs.
  2: { assert (E : AddLogging.add_field c h = c)
         by (unfold AddLogging.add_field; now rewrite Hs).
       now rewrite !E. }
  destruct (str_in (py "logger") (m_group1 m)) eqn:Hl.
  { assert (E : AddLogging.add_field c h = c)
      by (unfold AddLogging.add_field; now rewrite Hs, Hl).
    now rewrite !E. }
  assert (E : AddLogging.add_field c h =
              str_replace (m_group1 m) (m_group1 m ++ AddLogging.logger_field)
                c).
  { unfold AddLogging.add_field. rewrite Hs, Hl. cbn [negb].
    now rewrite (logger_absent_inner _ Hl). }
  rewrite E.
  destruct (span_grow _ "}" _ (until_delimiter_inv "}")
              (until_delimiter_match "}") HL c AddLogging.logger_field m Hs
              eq_refl) as (m' & Hs' & Hg' & _).
  unfold AddLogging.add_field at 1.
  change (AddLogging.struct_pattern h)
    with (Lit (py "type " ++ h ++ py " struct {") (until_delimiter "}")).
  rewrite Hs', Hg'.
  rewrite (str_in_behind (py "logger") (m_group1 m) AddLogging.logger_field)
    by reflexivity.
  reflexivity.
Qed.

Lemma add_init_twice (c h : list ascii) :
  In h AddLogging.handlers ->
  AddLogging.add_init (AddLogging.add_init c h) h = AddLogging.add_init c h.
Proof.
  intros Hh. destruct (struct_literal_free h Hh) as [_ HL].
  destruct (re_search (AddLogging.init_pattern h) c) as [m|] eqn:Hs.
  2: { assert (E : AddLogging.add_init c h = c)
         by (unfold AddLogging.add_init; now rewrite Hs).
       now rewrite !E. }
  destruct (negb (str_in (py "logger:") (m_group1 m))
            && negb (str_in (py "logger *") (m_group1 m))) eqn:Hl.
  2: { assert (E : AddLogging.add_init c h = c)
         by (unfold AddLogging.add_init; now rewrite Hs, Hl).
       now rewrite !E. }
  assert (E : AddLogging.add_init c h =
              str_replace (m_group1 m) (m_group1 m ++ AddLogging.logger_init)
                c)
    by (unfold AddLogging.add_init; now rewrite Hs, Hl).
  rewrite E.
  destruct (span_grow _ "}" _ (until_delimiter_inv "}")
              (until_delimiter_match "}") HL c AddLogging.logger_init m Hs
              eq_refl) as (m' & Hs' & Hg' & _).
  unfold AddLogging.add_init at 1.
  change (AddLogging.init_pattern h)
    with (Lit (py "return &" ++ h ++ py "{") (until_delimiter "}")).
  rewrite Hs', Hg'.
  rewrite (str_in_behind (py "logger:") (m_group1 m) AddLogging.logger_init)
    by reflexivity.
  reflexivity.
Qed.

Lemma add_arg_twice (c h : list ascii) :
  In h constructors ->
  UpdateMains.add_arg (UpdateMains.add_arg c h) h = UpdateMains.add_arg c h.
Proof.
  intros Hh. pose proof (call_literal_free h Hh) as HL.
  destruct (re_search (call_pattern h) c) as [m|] eqn:Hs.
  2: { assert (E : UpdateMains.add_arg c h = c)
         by (unfold UpdateMains.add_arg; now rewrite Hs).
       now rewrite !E. }
  destruct (str_in (py "logger") (str_lower (m_group1 m))) eqn:Hl.
  { assert (E : UpdateMains.add_arg c h = c)
      by (unfold UpdateMains.add_arg; now rewrite Hs, Hl).
    now rewrite !E. }
  assert (HF : exists F, new_args (m_group1 m) = m_group1 m ++ F
                 /\ forallb (is_not ")") F = true
                 /\ str_in (py "logger") (str_lower F) = true).
  { unfold new_args. destruct (str_endswith _ _); eexists; eauto. }
  destruct HF as (F & HF & HFc & HFl).
  assert (E : UpdateMains.add_arg c h =
              str_replace (m_group1 m) (m_group1 m ++ F) c)
    by (unfold UpdateMains.add_arg; now rewrite Hs, Hl, HF).
  rewrite E.
  destruct (span_grow _ ")" _ call_tail_inv call_tail_match HL c F m Hs HFc)
    as (m' & Hs' & Hg' & _).
  unfold UpdateMains.add_arg at 1.
  change (call_pattern h)
    with (Lit (h ++ py "(") (Star is_space (until_delimiter ")"))).
  rewrite Hs', Hg'. unfold str_lower. rewrite map_app.
  rewrite (str_in_behind (py "logger") _ _ HFl).
  reflexivity.
Qed.

End OwnResult.

(** X19. The field rule and the struct-literal rule of
    scripts/add-logging.py leave their own result alone: after the rule
    rewrote the span of the first match, the first match is at the same
    place and its span names the logger. *)
Theorem field_rules_idempotent (c h : list ascii) :
  In h AddLogging.handlers ->
  AddLogging.add_field (AddLogging.add_field c h) h = AddLogging.add_field c h
  /\ AddLogging.add_init (AddLogging.add_init c h) h =
       AddLogging.add_init c h.
Proof.
  intros Hh. split; [now apply add_field_twice|now apply add_init_twice].
Qed.

Lemma field_rules_idempotent_witness :
  AddLogging.add_field (AddLogging.add_field handler_go (py "FXHandler"))
    (py "FXHandler") = AddLogging.add_field handler_go (py "FXHandler")
  /\ AddLogging.add_init (AddLogging.add_init handler_go (py "FXHandler"))
       (py "FXHandler") = AddLogging.add_init handler_go (py "FXHandler").
Proof.
  apply (field_rules_idempotent handler_go (py "FXHandler")).
  right. left. reflexivity.
Defined.

(** X20. One turn of the loop of the main-file updater leaves its own
    result alone: after the turn rewrote the arguments of the first call,
    the first call is at the same place and its arguments name the
    logger. *)
Theorem argument_rule_idempotent (c h : list ascii) :
  In h constructors ->
  UpdateMains.add_arg (UpdateMains.add_arg c h) h = UpdateMains.add_arg c h.
Proof. apply add_arg_twice. Qed.

Lemma argument_rule_idempotent_witness :
  UpdateMains.add_arg (UpdateMains.add_arg two_calls (py "NewFXHandler"))
    (py "NewFXHandler") = UpdateMains.add_arg two_calls (py "NewFXHandler").
Proof.
  apply (argument_rule_idempotent two_calls (py "NewFXHandler")).
  right. left. reflexivity.
Defined.

(** * The batch drivers *)

(** What the counters of a run add up to. *)
Lemma lines_count (transform : list ascii -> list ascii) (quiet : bool)
    (w : world) (paths : list string) :
  count_updated (lines_of transform quiet w paths) =
    length (writes_of transform w paths)
  /\ length (lines_of transform quiet w paths) =
       if quiet then length (writes_of transform w paths) else length paths.
Proof.
  unfold count_updated, lines_of, writes_of, line_of.
  induction paths as [|f paths [IHc IHl]]; [now destruct quiet|].
  cbn [flat_map omap list_omap].
  rewrite filter_app, !length_app, IHc, IHl.
  destruct (write_of transform w f); [now destruct quiet|].
  destruct quiet; split; reflexivity.
Qed.

Section Drivers.

(** A loop body that reads one file, rewrites it when [transform] changes
    it, reports it, and counts it; [quiet] bodies report changed files
    only. *)
Variables (body : string -> nat -> io nat)
          (transform : list ascii -> list ascii) (quiet : bool).

Hypothesis body_present : forall w f n c,
  files w !! f = Some c ->
  body f n w =
    if bool_decide (transform c ≠ c)
    then (Returned (n + 1),
          after_print (Updated f) (after_write f (transform c) w))
    else (Returned n,
          if quiet then w else after_print (NoChangesNeeded f) w).

Hypothesis body_missing : forall w f n,
  files w !! f = None -> body f n w = (Raised (FileNotFoundError f), w).

(** One turn of the loop on a file that is there. *)
Lemma body_turn w f n c :
  files w !! f = Some c ->
  exists w1,
    body f n w = (Returned (n + length (writes_of transform w [f])), w1)
    /\ written w1 = written w ++ writes_of transform w [f]
    /\ printed w1 = printed w ++ line_of transform quiet w f
    /\ files w1 = <[f := transform c]> (files w).
Proof.
  intros Hf. rewrite (body_present w f n c Hf).
  unfold writes_of, line_of, write_of. cbn [omap list_omap]. rewrite Hf.
  cbn [mbind option_bind].
  destruct (bool_decide (transform c ≠ c)) eqn:Hc.
  - eexists. split; [reflexivity|]. cbn. auto.
  - apply bool_decide_eq_false in Hc. apply dec_stable in Hc.
    assert (Hid : <[f := transform c]> (files w) = files w)
      by (rewrite Hc; now apply insert_id).
    rewrite Hid, Nat.add_0_r.
    destruct quiet; eexists; (split; [reflexivity|]); cbn;
      rewrite ?app_nil_r; auto.
Qed.

(** The writes and lines of a list of files depend on their content only. *)
Lemma writes_of_ext w1 w2 paths :
  (forall p, p ∈ paths -> files w1 !! p = files w2 !! p) ->
  writes_of transform w1 paths = writes_of transform w2 paths
  /\ lines_of transform quiet w1 paths = lines_of transform quiet w2 paths.
Proof.
  induction paths as [|f paths IH]; intros H; [now split|].
  destruct IH as [IHw IHl].
  { intros p Hp. apply H. now right. }
  assert (Hf : write_of transform w1 f = write_of transform w2 f).
  { unfold write_of. rewrite (H f); [reflexivity|now left]. }
  unfold writes_of, lines_of, line_of in *. cbn [omap list_omap flat_map].
  rewrite Hf, IHw, IHl. now split.
Qed.

(** The loop over distinct files that are all there: every file is
    transformed, in order. *)
Lemma for_each_run paths : forall n w,
  NoDup paths ->
  Forall (fun p => is_Some (files w !! p)) paths ->
  exists w',
    for_each paths body n w =
      (Returned (n + length (writes_of transform w paths)), w')
    /\ written w' = written w ++ writes_of transform w paths
    /\ printed w' = printed w ++ lines_of transform quiet w paths
    /\ forall q, files w' !! q =
         if bool_decide (q ∈ paths) then transform <$> files w !! q
         else files w !! q.
Proof.
  induction paths as [|f paths IH]; intros n w Hnd Hall.
  - exists w. cbn. rewrite !app_nil_r, Nat.add_0_r. repeat split; auto.
  - apply NoDup_cons in Hnd as [Hnotin Hnd].
    apply Forall_cons in Hall as [[c Hf] Hall].
    destruct (body_turn w f n c Hf) as (w1 & Hb & Hw1 & Hp1 & Hf1).
    assert (Hsame : forall p, p ∈ paths -> files w1 !! p = files w !! p).
    { intros p Hp. rewrite Hf1. apply lookup_insert_ne. now intros ->. }
    assert (Hall1 : Forall (fun p => is_Some (files w1 !! p)) paths).
    { apply Forall_forall. intros p Hp. rewrite (Hsame p Hp).
      revert p Hp. now apply Forall_forall. }
    destruct (writes_of_ext w1 w paths Hsame) as [Ew El].
    destruct (IH (n + length (writes_of transform w [f])) w1 Hnd Hall1)
      as (w2 & Hrun & Hw2 & Hp2 & Hfiles).
    exists w2. cbn [for_each]. unfold mbind at 1, io_bind. rewrite Hb, Hrun.
    rewrite Hw2, Hw1, Hp2, Hp1, Ew, El, <- !app_assoc.
    assert (Hsplit : writes_of transform w (f :: paths) =
                     writes_of transform w [f] ++ writes_of transform w paths).
    { unfold writes_of. cbn [omap list_omap].
      destruct (write_of transform w f); reflexivity. }
    rewrite Hsplit, length_app, Nat.add_assoc.
    repeat split; auto.
    intros q. rewrite Hfiles. destruct (decide (q = f)) as [->|Hne].
    + rewrite (bool_decide_eq_false_2 _ Hnotin).
      rewrite (bool_decide_eq_true_2 (f ∈ f :: paths)) by now left.
      rewrite Hf1, lookup_insert_eq, Hf. reflexivity.
    + rewrite Hf1, lookup_insert_ne by congruence.
      destruct (decide (q ∈ paths)) as [Hin|Hout].
      * rewrite (bool_decide_eq_true_2 _ Hin).
        rewrite (bool_decide_eq_true_2 (q ∈ f :: paths)) by now right.
        reflexivity.
      * rewrite (bool_decide_eq_false_2 _ Hout).
        rewrite (bool_decide_eq_false_2 (q ∈ f :: paths)); [reflexivity|].
        intros Hq. apply elem_of_cons in Hq as [->|Hq]; congruence.
Qed.

(** The loop over a list splits where the list does. *)
Lemma for_each_app xs ys : forall n w,
  for_each (xs ++ ys) body n w =
    match for_each xs body n w with
    | (Returned n', w') => for_each ys body n' w'
    | (Raised e, w') => (Raised e, w')
    end.
Proof.
  induction xs as [|x xs IH]; intros n w; [reflexivity|].
  cbn [app for_each]. unfold mbind, io_bind.
  destruct (body x n w) as [[n1|e] w1]; [apply IH|reflexivity].
Qed.

(** The loop stops at the first file that is missing. *)
Lemma for_each_abort pre p post n w :
  NoDup pre ->
  Forall (fun f => is_Some (files w !! f)) pre ->
  files w !! p = None ->
  exists w',
    for_each (pre ++ p :: post) body n w = (Raised (FileNotFoundError p), w')
    /\ written w' = written w ++ writes_of transform w pre
    /\ printed w' = printed w ++ lines_of transform quiet w pre
    /\ forall q, files w' !! q =
         if bool_decide (q ∈ pre) then transform <$> files w !! q
         else files w !! q.
Proof.
  intros Hnd Hall Hp.
  destruct (for_each_run pre n w Hnd Hall) as (w' & Hrun & Hw & Hl & Hfiles).
  exists w'. rewrite for_each_app, Hrun. cbn [for_each].
  unfold mbind at 1, io_bind.
  assert (Hp' : files w' !! p = None).
  { rewrite Hfiles. rewrite bool_decide_eq_false_2; [exact Hp|].
    intros Hin. eapply Forall_forall in Hall; [|exact Hin].
    rewrite Hp in Hall. now destruct Hall. }
  rewrite (body_missing w' p _ Hp'). auto.
Qed.

(** The loop, whatever happens: the files that are not in the list are
    never touched. *)
Lemma for_each_frame paths : forall n w q,
  q ∉ paths -> files (for_each paths body n w).2 !! q = files w !! q.
Proof.
  induction paths as [|f paths IH]; intros n w q Hq; [reflexivity|].
  apply not_elem_of_cons in Hq as [Hne Hq].
  cbn [for_each]. unfold mbind at 1, io_bind.
  destruct (files w !! f) as [c|] eqn:Hf.
  - destruct (body_turn w f n c Hf) as (w1 & Hb & _ & _ & Hf1).
    rewrite Hb, (IH _ _ _ Hq), Hf1. now apply lookup_insert_ne.
  - now rewrite (body_missing w f n Hf).
Qed.

(** The loop followed by the line of the total. *)
Lemma batch_run paths w :
  NoDup paths ->
  Forall (fun p => is_Some (files w !! p)) paths ->
  batch_result transform quiet paths w
    ((count ← for_each paths body 0; print (Total count)) w).
Proof.
  intros Hnd Hall.
  destruct (for_each_run paths 0 w Hnd Hall) as (w' & Hrun & Hw & Hl & Hfiles).
  unfold batch_result, mbind, io_bind. rewrite Hrun. cbn.
  rewrite Hl, <- app_assoc. auto.
Qed.

Lemma batch_abort pre p post w :
  NoDup pre ->
  Forall (fun f => is_Some (files w !! f)) pre ->
  files w !! p = None ->
  batch_aborted transform quiet pre p w
    ((count ← for_each (pre ++ p :: post) body 0; print (Total count)) w).
Proof.
  intros Hnd Hall Hp.
  destruct (for_each_abort pre p post 0 w Hnd Hall Hp)
    as (w' & Hrun & Hw & Hl & Hfiles).
  unfold batch_aborted, mbind, io_bind. rewrite Hrun. cbn. auto.
Qed.

Lemma batch_frame paths w q :
  q ∉ paths ->
  files ((count ← for_each paths body 0; print (Total count)) w).2 !! q =
    files w !! q.
Proof.
  intros Hq. rewrite <- (for_each_frame paths 0 w q Hq).
  unfold mbind, io_bind.
  destruct (for_each paths body 0 w) as [[n|e] w']; reflexivity.
Qed.

End Drivers.

(** The loop of [update_all] has [update_and_report] as its body. *)
Lemma update_all_body (update : string -> io bool) (paths : list string) :
  update_all update paths =
    (count ← for_each paths (update_and_report update) 0;
     print (Total count)).
Proof. reflexivity. Qed.

(** The loop bodies of the three batch scripts. *)
Lemma update_main_file_missing w path :
  files w !! path = None ->
  update_main_file path w = (Raised (FileNotFoundError path), w).
Proof.
  intros H. unfold update_main_file, mbind, io_bind, read_file.
  now rewrite H.
Qed.

Lemma update_test_file_missing w path n :
  files w !! path = None ->
  update_test_file path n w = (Raised (FileNotFoundError path), w).
Proof.
  intros H. unfold update_test_file, mbind, io_bind, read_file.
  now rewrite H.
Qed.

Lemma report_present (update : string -> io bool)
    (transform : list ascii -> list ascii) :
  (forall w f c, files w !! f = Some c ->
     update f w =
       if bool_decide (transform c ≠ c)
       then (Returned true, after_write f (transform c) w)
       else (Returned false, w)) ->
  forall w f n c, files w !! f = Some c ->
    update_and_report update f n w =
      if bool_decide (transform c ≠ c)
      then (Returned (n + 1),
            after_print (Updated f) (after_write f (transform c) w))
      else (Returned n, after_print (NoChangesNeeded f) w).
Proof.
  intros Hrun w f n c Hf. unfold update_and_report, mbind, io_bind.
  rewrite (Hrun w f c Hf).
  destruct (bool_decide (transform c ≠ c)); reflexivity.
Qed.

Lemma report_missing (update : string -> io bool) :
  (forall w f, files w !! f = None ->
     update f w = (Raised (FileNotFoundError f), w)) ->
  forall w f n, files w !! f = None ->
    update_and_report update f n w = (Raised (FileNotFoundError f), w).
Proof.
  intros Hmiss w f n Hf. unfold update_and_report, mbind, io_bind.
  now rewrite (Hmiss w f Hf).
Qed.

(** X1. A run of scripts/add-logging.py over distinct files that are all
    there returns, leaves every listed file with its transformed content,
    writes the files that the transform changes, in the order of the list,
    and prints one line for each file and then the total, which is the
    number of writes. *)
Theorem handler_batch_run (paths : list string) (w : world) :
  NoDup paths ->
  Forall (fun p => is_Some (files w !! p)) paths ->
  batch_result AddLogging.transform false paths w (add_logging_main paths w).
Proof.
  apply (batch_run (update_and_report update_handler_file)
           AddLogging.transform false).
  apply report_present. intros w0 f c. apply update_handler_file_run.
Qed.

Lemma handler_batch_run_witness :
  batch_result AddLogging.transform false ["a.go"; "b.go"]%string
    (two_files handler_go plain_go)
    (add_logging_main ["a.go"; "b.go"]%string (two_files handler_go plain_go)).
Proof.
  apply handler_batch_run.
  - apply NoDup_cons. split; [|apply NoDup_singleton].
    rewrite list_elem_of_singleton. discriminate.
  - repeat (apply Forall_cons; split; [vm_compute; eauto|]).
    apply Forall_nil_2.
Defined.

(** X2. A run of scripts/update-mains.py over distinct files that are all
    there returns, leaves every listed file with its transformed content,
    writes the files that the transform changes, in the order of the list,
    and prints one line for each file and then the total, which is the
    number of writes. *)
Theorem main_batch_run (paths : list string) (w : world) :
  NoDup paths ->
  Forall (fun p => is_Some (files w !! p)) paths ->
  batch_result UpdateMains.transform false paths w (update_mains_main paths w).
Proof.
  apply (batch_run (update_and_report update_main_file)
           UpdateMains.transform false).
  apply report_present. intros w0 f c. apply update_main_file_run.
Qed.

Lemma main_batch_run_witness :
  batch_result UpdateMains.transform false ["a.go"; "b.go"]%string
    (two_files call_without_logger plain_go)
    (update_mains_main ["a.go"; "b.go"]%string
       (two_files call_without_logger plain_go)).
Proof.
  apply main_batch_run.
  - apply NoDup_cons. split; [|apply NoDup_singleton].
    rewrite list_elem_of_singleton. discriminate.
  - repeat (apply Forall_cons; split; [vm_compute; eauto|]).
    apply Forall_nil_2.
Defined.

(** X3. A run of scripts/update-tests.py over distinct files that are all
    there returns, leaves every listed file with its transformed content,
    writes the files that the transform changes, in the order of the list,
    and prints a line for each file it wrote, none for the others, and then
    the total. *)
Theorem test_batch_run (paths : list string) (w : world) :
  NoDup paths ->
  Forall (fun p => is_Some (files w !! p)) paths ->
  batch_result UpdateTests.transform true paths w (update_tests_main paths w).
Proof.
  apply (batch_run update_test_file UpdateTests.transform true).
  intros w0 f n c Hf. apply update_test_file_run, Hf.
Qed.

Lemma test_batch_run_witness :
  batch_result UpdateTests.transform true ["a.go"; "b.go"]%string
    (two_files call_without_logger plain_go)
    (update_tests_main ["a.go"; "b.go"]%string
       (two_files call_without_logger plain_go)).
Proof.
  apply test_batch_run.
  - apply NoDup_cons. split; [|apply NoDup_singleton].
    rewrite list_elem_of_singleton. discriminate.
  - repeat (apply Forall_cons; split; [vm_compute; eauto|]).
    apply Forall_nil_2.
Defined.

(** X4. A file of the list that cannot be opened ends the run of each of
    the three batch scripts with [FileNotFoundError]: the files before it
    are transformed and reported, the files after it are not read, and the
    line of the total is not printed. *)
Theorem batch_stops_at_missing_file (pre post : list string) (p : string)
    (w : world) :
  NoDup pre ->
  Forall (fun f => is_Some (files w !! f)) pre ->
  files w !! p = None ->
  batch_aborted AddLogging.transform false pre p w
    (add_logging_main (pre ++ p :: post) w)
  /\ batch_aborted UpdateMains.transform false pre p w
       (update_mains_main (pre ++ p :: post) w)
  /\ batch_aborted UpdateTests.transform true pre p w
       (update_tests_main (pre ++ p :: post) w).
Proof.
  intros Hnd Hall Hp. split; [|split].
  - apply (batch_abort (update_and_report update_handler_file)
             AddLogging.transform false); auto.
    + apply report_present. intros w0 f c. apply update_handler_file_run.
    + apply report_missing. intros w0 f. apply update_handler_file_missing.
  - apply (batch_abort (update_and_report update_main_file)
             UpdateMains.transform false); auto.
    + apply report_present. intros w0 f c. apply update_main_file_run.
    + apply report_missing. intros w0 f. apply update_main_file_missing.
  - apply (batch_abort update_test_file UpdateTests.transform true); auto.
    + intros w0 f n c Hf. apply update_test_file_run, Hf.
    + intros w0 f n. apply update_test_file_missing.
Qed.

Lemma batch_stops_at_missing_file_witness :
  batch_aborted AddLogging.transform false ["a.go"%string] "c.go"
    (two_files handler_go plain_go)
    (add_logging_main ["a.go"; "c.go"; "b.go"]%string
       (two_files handler_go plain_go))
  /\ batch_aborted UpdateMains.transform false ["a.go"%string] "c.go"
       (two_files handler_go plain_go)
       (update_mains_main ["a.go"; "c.go"; "b.go"]%string
          (two_files handler_go plain_go))
  /\ batch_aborted UpdateTests.transform true ["a.go"%string] "c.go"
       (two_files handler_go plain_go)
       (update_tests_main ["a.go"; "c.go"; "b.go"]%string
          (two_files handler_go plain_go)).
Proof.
  apply (batch_stops_at_missing_file ["a.go"%string] ["b.go"%string] "c.go").
  - apply NoDup_singleton.
  - apply Forall_cons. split; [vm_compute; eauto|apply Forall_nil_2].
  - reflexivity.
Defined.

(** X5. Whatever the outcome of a run, each of the three batch scripts
    leaves every file that is not in its list as it is, the compose file
    included, and scripts/fix-healthchecks.py leaves every file but the
    compose file as it is. *)
Theorem other_files_untouched (paths : list string) (w : world) (q : string) :
  (q ∉ paths ->
   files (add_logging_main paths w).2 !! q = files w !! q
   /\ files (update_mains_main paths w).2 !! q = files w !! q
   /\ files (update_tests_main paths w).2 !! q = files w !! q)
  /\ (q ≠ compose_file ->
      files (fix_healthchecks_main w).2 !! q = files w !! q).
Proof.
  split.
  - intros Hq. split; [|split].
    + apply (batch_frame (update_and_report update_handler_file)
               AddLogging.transform false); auto.
      * apply report_present. intros w0 f c. apply update_handler_file_run.
      * apply report_missing. intros w0 f. apply update_handler_file_missing.
    + apply (batch_frame (update_and_report update_main_file)
               UpdateMains.transform false); auto.
      * apply report_present. intros w0 f c. apply update_main_file_run.
      * apply report_missing. intros w0 f. apply update_main_file_missing.
    + apply (batch_frame update_test_file UpdateTests.transform true); auto.
      * intros w0 f n c Hf. apply update_test_file_run, Hf.
      * intros w0 f n. apply update_test_file_missing.
  - intros Hc. unfold fix_healthchecks_main, mbind, io_bind, read_file.
    destruct (files w !! compose_file); [|reflexivity].
    cbn. now apply lookup_insert_ne.
Qed.

Lemma other_files_untouched_witness :
  (files (add_logging_main ["a.go"%string]
            (one_file compose_file compose_two_services)).2
     !! compose_file = Some compose_two_services
   /\ files (update_mains_main ["a.go"%string]
               (one_file compose_file compose_two_services)).2
        !! compose_file = Some compose_two_services
   /\ files (update_tests_main ["a.go"%string]
               (one_file compose_file compose_two_services)).2
        !! compose_file = Some compose_two_services)
  /\ files (fix_healthchecks_main (two_files handler_go plain_go)).2
       !! "b.go"%string = Some plain_go.
Proof.
  split.
  - apply (other_files_untouched ["a.go"%string]
             (one_file compose_file compose_two_services) compose_file).
    rewrite list_elem_of_singleton. discriminate.
  - apply (other_files_untouched [] (two_files handler_go plain_go) "b.go").
    discriminate.
Defined.

(** X6. The total that the batch scripts print is the number of [Updated]
    lines before it; add-logging and update-mains print one line for each
    file, update-tests prints the [Updated] lines only. *)
Theorem total_counts_updated_lines (paths : list string) (w : world) :
  NoDup paths ->
  Forall (fun p => is_Some (files w !! p)) paths ->
  (exists lines,
     printed (add_logging_main paths w).2 =
       printed w ++ lines ++ [Total (count_updated lines)]
     /\ length lines = length paths)
  /\ (exists lines,
        printed (update_mains_main paths w).2 =
          printed w ++ lines ++ [Total (count_updated lines)]
        /\ length lines = length paths)
  /\ (exists lines,
        printed (update_tests_main paths w).2 =
          printed w ++ lines ++ [Total (count_updated lines)]
        /\ length lines = count_updated lines).
Proof.
  intros Hnd Hall. split; [|split].
  - exists (lines_of AddLogging.transform false w paths).
    destruct (lines_count AddLogging.transform false w paths) as [-> ->].
    split; [|reflexivity].
    apply (batch_run (update_and_report update_handler_file)
             AddLogging.transform false); auto.
    apply report_present. intros w0 f c. apply update_handler_file_run.
  - exists (lines_of UpdateMains.transform false w paths).
    destruct (lines_count UpdateMains.transform false w paths) as [-> ->].
    split; [|reflexivity].
    apply (batch_run (update_and_report update_main_file)
             UpdateMains.transform false); auto.
    apply report_present. intros w0 f c. apply update_main_file_run.
  - exists (lines_of UpdateTests.transform true w paths).
    destruct (lines_count UpdateTests.transform true w paths) as [-> ->].
    split; [|reflexivity].
    apply (batch_run update_test_file UpdateTests.transform true); auto.
    intros w0 f n c Hf. apply update_test_file_run, Hf.
Qed.

Lemma total_counts_updated_lines_witness :
  (exists lines,
     printed (add_logging_main ["a.go"; "b.go"]%string
                (two_files handler_go plain_go)).2 =
       printed (two_files handler_go plain_go) ++ lines
         ++ [Total (count_updated lines)]
     /\ length lines = 2)
  /\ (exists lines,
        printed (update_mains_main ["a.go"; "b.go"]%string
                   (two_files handler_go plain_go)).2 =
          printed (two_files handler_go plain_go) ++ lines
            ++ [Total (count_updated lines)]
        /\ length lines = 2)
  /\ (exists lines,
        printed (update_tests_main ["a.go"; "b.go"]%string
                   (two_files handler_go plain_go)).2 =
          printed (two_files handler_go plain_go) ++ lines
            ++ [Total (count_updated lines)]
        /\ length lines = count_updated lines).
Proof.
  apply (total_counts_updated_lines ["a.go"; "b.go"]%string
           (two_files handler_go plain_go)).
  - apply NoDup_cons. split; [|apply NoDup_singleton].
    rewrite list_elem_of_singleton. discriminate.
  - repeat (apply Forall_cons; split; [vm_compute; eauto|]).
    apply Forall_nil_2.
Defined.

(** X7. Without the compose file scripts/fix-healthchecks.py stops with
    [FileNotFoundError] before it writes or prints anything. *)
Theorem healthcheck_pass_needs_compose_file (w : world) :
  files w !! compose_file = None ->
  fix_healthchecks_main w = (Raised (FileNotFoundError compose_file), w).
Proof.
  intros H. unfold fix_healthchecks_main, mbind, io_bind, read_file.
  now rewrite H.
Qed.

Lemma healthcheck_pass_needs_compose_file_witness :
  fix_healthchecks_main (one_file "handler.go" plain_go) =
    (Raised (FileNotFoundError compose_file), one_file "handler.go" plain_go).
Proof.
  apply healthcheck_pass_needs_compose_file. reflexivity.
Defined.
